(** * transcribe_senko: the speaker aligner, the time formatter and the
      transcription pipeline of [scripts/transcribe_senko.py]

    A shallow embedding of the parts of the script that its specification
    talks about, followed by the properties proved of them.

    Modelling conventions.
    - A Python [float] holding a time in seconds is an exact rational [Q]:
      every finite float is a rational, comparisons are the same, and
      subtraction is taken exact (rounding of float arithmetic is not
      modelled).
    - A Python [str] is a [string] holding its UTF-8 bytes; equality of the
      byte strings is equality of the Python strings.
    - A segment or interval dictionary is a record of optional entries; an
      absent key is [None] and is read with the default that the script
      passes to [dict.get].  Segment dictionaries are modelled by value: a
      list built by [run_transcription] holds pairwise distinct objects.
    - [dict.get], [str.strip] and [str.splitlines] are Python built-ins;
      the last two are parameters of the pipeline section.
    - The engines, the converter and the interrupt are read from a [World];
      the run threads a [State] and leaves a trace of events.  The lines
      written by [log], the timings kept in the metadata, the formatted
      reports and the writing of the result are not part of the model. *)

From Stdlib Require Import QArith Qminmax Qround Lqa ZArith Lia.
From Stdlib Require Import List Bool String Ascii Decimal DecimalString Sorted.
From Stdlib Require Import Permutation.
Import ListNotations.

Local Open Scope Q_scope.

(** ** Python built-ins used by the script *)

Module Py.

(** [dict.get(key, default)] on an optional entry. *)
Definition get {A : Type} (entry : option A) (default : A) : A :=
  match entry with
  | Some v => v
  | None => default
  end.

(** Truth value of a string: the empty string is false. *)
Definition truthy (s : string) : bool :=
  match s with
  | EmptyString => false
  | String _ _ => true
  end.

(** Truth value of an optional string ([None] or a [str]). *)
Definition truthy_opt (o : option string) : bool :=
  match o with
  | Some s => truthy s
  | None => false
  end.

Definition Qltb (x y : Q) : bool := negb (Qle_bool y x).

(** [round(x)] with one argument: the nearest integer, a tie going to the
    even neighbour. *)
Definition round (x : Q) : Z :=
  let f := Qfloor x in
  match Qcompare (x - inject_Z f) (1 # 2) with
  | Lt => f
  | Gt => (f + 1)%Z
  | Eq => if Z.even f then f else (f + 1)%Z
  end.

(** [round(x, 2)]: the nearest multiple of one hundredth. *)
Definition round2 (x : Q) : Q := inject_Z (round (x * 100)) / 100.

(** [str(n)] for a natural number [n], as in [f"{n}"]. *)
Definition str_of_Z (n : Z) : string :=
  NilZero.string_of_uint (N.to_uint (Z.to_N n)).

(** [f"{n:02d}"] for a natural number [n]: at least two digits, padded
    with zeros on the left. *)
Definition str02_of_Z (n : Z) : string :=
  let s := str_of_Z n in
  match s with
  | EmptyString => "00"
  | String _ EmptyString => String "0" s
  | _ => s
  end.

End Py.

(** ** Data model *)

(** A transcript segment: the dictionary with keys [start], [end], [text]
    and, once aligned, [speaker]. *)
Record Segment : Type := mkSegment {
  seg_start : option Q;
  seg_end : option Q;
  seg_text : option string;
  seg_speaker : option string
}.

(** A diarization interval: the dictionary with keys [start], [end] and
    [speaker]. *)
Record Interval : Type := mkInterval {
  iv_start : option Q;
  iv_end : option Q;
  iv_speaker : option string
}.

(** [float(d.get("start", 0))] and [float(d.get("end", 0))]. *)
Definition start_of (iv : Interval) : Q := Py.get (iv_start iv) 0.
Definition end_of (iv : Interval) : Q := Py.get (iv_end iv) 0.
Definition seg_start_of (seg : Segment) : Q := Py.get (seg_start seg) 0.
Definition seg_end_of (seg : Segment) : Q := Py.get (seg_end seg) 0.

(** [speaker_seg.get("speaker", "SPEAKER_?")]. *)
Definition label_of (iv : Interval) : string := Py.get (iv_speaker iv) "SPEAKER_?"%string.

(** [seg["speaker"] = label]. *)
Definition set_speaker (seg : Segment) (label : string) : Segment :=
  {| seg_start := seg_start seg;
     seg_end := seg_end seg;
     seg_text := seg_text seg;
     seg_speaker := Some label |}.

(** ** The interval aligner, [assign_speakers] *)

Module Aligner.

(** [sorted(speaker_segments, key=lambda s: float(s.get("start", 0)))]:
    a stable sort by start time, here by insertion from the right. *)
Fixpoint insert_by_start (iv : Interval) (l : list Interval) : list Interval :=
  match l with
  | [] => [iv]
  | x :: l' =>
      if Qle_bool (start_of iv) (start_of x) then iv :: x :: l'
      else x :: insert_by_start iv l'
  end.

Definition sorted_by_start (l : list Interval) : list Interval :=
  fold_right insert_by_start [] l.

(** [max(0.0, min(seg_end, speaker_end) - max(seg_start, speaker_start))] *)
Definition overlap (s e : Q) (iv : Interval) : Q :=
  Qmax 0 (Qmin e (end_of iv) - Qmax s (start_of iv)).

(** The first inner loop.  [rest] is [ordered_speaker_segments[speaker_idx:]];
    the cursor moves past every interval that ends at or before the
    segment's start and the new [speaker_idx] is returned. *)
Fixpoint advance (rest : list Interval) (speaker_idx : nat) (s : Q) : nat :=
  match rest with
  | [] => speaker_idx
  | iv :: rest' =>
      if Qle_bool (end_of iv) s then advance rest' (S speaker_idx) s
      else speaker_idx
  end.

(** The second inner loop.  [rest] is [ordered_speaker_segments[probe_idx:]];
    the loop runs while the interval at [probe_idx] starts before the
    segment's end and keeps the best overlap met so far and its label. *)
Fixpoint probe (rest : list Interval) (s e : Q)
    (best_overlap : Q) (best_speaker : option string) : Q * option string :=
  match rest with
  | [] => (best_overlap, best_speaker)
  | speaker_seg :: rest' =>
      if Py.Qltb (start_of speaker_seg) e then
        let ov := overlap s e speaker_seg in
        if Py.Qltb best_overlap ov
        then probe rest' s e ov (Some (label_of speaker_seg))
        else probe rest' s e best_overlap best_speaker
      else (best_overlap, best_speaker)
  end.

(** The body of the [for seg in segments] loop for one segment: the new
    cursor and the segment as it is left. *)
Definition assign_one (ordered : list Interval) (speaker_idx : nat) (seg : Segment)
    : nat * Segment :=
  let s := seg_start_of seg in
  let e := seg_end_of seg in
  let speaker_idx' := advance (skipn speaker_idx ordered) speaker_idx s in
  let '(_, best_speaker) := probe (skipn speaker_idx' ordered) s e 0 None in
  (speaker_idx',
   match best_speaker with
   | Some label => if Py.truthy label then set_speaker seg label else seg
   | None => seg
   end).

(** The [for seg in segments] loop, from cursor [speaker_idx]. *)
Fixpoint sweep (ordered : list Interval) (speaker_idx : nat) (segments : list Segment)
    : list Segment :=
  match segments with
  | [] => []
  | seg :: segments' =>
      let '(speaker_idx', seg') := assign_one ordered speaker_idx seg in
      seg' :: sweep ordered speaker_idx' segments'
  end.

Definition assign_speakers (segments : list Segment) (speaker_segments : list Interval)
    : list Segment :=
  match speaker_segments with
  | [] => segments
  | _ :: _ => sweep (sorted_by_start speaker_segments) 0 segments
  end.

End Aligner.


(** ** The time formatter and the speaker summary *)

Module Formatter.

(** [format_time]: whole seconds, never negative, as [M:SS] or [H:MM:SS]. *)
Definition format_time (seconds : Q) : string :=
  let total := Z.max 0 (Py.round seconds) in
  let hours := (total / 3600)%Z in
  let minutes := ((total mod 3600) / 60)%Z in
  let secs := (total mod 60)%Z in
  if (0 <? hours)%Z then
    (Py.str_of_Z hours ++ ":" ++ Py.str02_of_Z minutes ++ ":" ++ Py.str02_of_Z secs)%string
  else
    (Py.str_of_Z minutes ++ ":" ++ Py.str02_of_Z secs)%string.

(** One entry of the [speakers] list of the result. *)
Record SpeakerSummary : Type := mkSpeakerSummary {
  id : string;
  segment_count : nat;
  total_time : string
}.

(** The value kept per speaker in the [summary] dictionary. *)
Record Stats : Type := mkStats {
  duration : Q;
  segments : nat
}.

(** [stats = summary.setdefault(speaker, {...}); stats["duration"] += d;
    stats["segments"] += 1] on a dictionary kept in insertion order. *)
Fixpoint summary_add (speaker : string) (d : Q) (summary : list (string * Stats))
    : list (string * Stats) :=
  match summary with
  | [] => [(speaker, mkStats (0 + d) (0 + 1))]
  | (k, stats) :: summary' =>
      if String.eqb k speaker
      then (k, mkStats (duration stats + d) (segments stats + 1)) :: summary'
      else (k, stats) :: summary_add speaker d summary'
  end.

(** The body of the loop over the segments. *)
Definition summary_step (summary : list (string * Stats)) (seg : Segment)
    : list (string * Stats) :=
  match seg_speaker seg with
  | None => summary
  | Some speaker =>
      if negb (Py.truthy speaker) then summary
      else summary_add speaker (Qmax 0 (seg_end_of seg - seg_start_of seg)) summary
  end.

(** [sorted(summary.items())]: the keys are distinct, so the pairs are
    ordered by key. *)
Fixpoint insert_by_key (item : string * Stats) (l : list (string * Stats))
    : list (string * Stats) :=
  match l with
  | [] => [item]
  | x :: l' =>
      if String.leb (fst item) (fst x) then item :: x :: l'
      else x :: insert_by_key item l'
  end.

Definition sorted_items (summary : list (string * Stats)) : list (string * Stats) :=
  fold_right insert_by_key [] summary.

Definition build_speaker_summary (segs : list Segment) : list SpeakerSummary :=
  map (fun item =>
         mkSpeakerSummary (fst item) (segments (snd item))
                          (format_time (duration (snd item))))
      (sorted_items (fold_left summary_step segs [])).

End Formatter.

(** ** The pipeline orchestrator *)

Module Pipeline.

Import Aligner Formatter.

Record TranscriptionConfig : Type := mkConfig {
  audio_path : string;
  model_size : string;
  language : option string;
  enable_diarization : bool;
  output_format : string;
  output_path : option string;
  quiet : bool;
  stream_progress : bool;
  senko_warmup : bool
}.

(** A record of the transcription engine's [segments] list. *)
Record RawSegment : Type := mkRawSegment {
  raw_start : option Q;
  raw_end : option Q;
  raw_text : option string
}.

(** What [mlx_whisper.transcribe] returns. *)
Record RawResult : Type := mkRawResult {
  raw_language : option string;
  raw_segments : option (list RawSegment)
}.

(** Everything outside the script that one run depends on. *)
Record World : Type := mkWorld {
  (** [os.path.exists(audio_path)] *)
  audio_exists : bool;
  (** the value of [probe_duration], [0] when probing fails *)
  probed_duration : Q;
  (** the name handed out by [tempfile.NamedTemporaryFile] *)
  temp_wav_name : string;
  (** exit status and diagnostics of the [ffmpeg] subprocess *)
  ffmpeg_returncode : Z;
  ffmpeg_stderr : string;
  (** the transcription engine, by model and language *)
  whisper : string -> option string -> RawResult;
  (** the [merged_segments] entry of the diarization engine's answer *)
  senko_merged_segments : option (list Interval);
  (** the interrupt: [Some t] when the signal handler sets [interrupted]
      just before the script reads the flag for the [t]-th time (counting
      from 0), [None] when no signal arrives *)
  sigint_before_read : option nat
}.

(** What the run does to the outside, in the order of the main thread. *)
Inductive Event : Type :=
| Progress (stage : string) (percent : nat)
| RunFfmpeg (target : string)
| RunWhisper (model : string)
| RunSenko (wav : string)
| Unlink (path : string).

Inductive Exn : Type :=
| FileNotFoundError (msg : string)
| RuntimeError (msg : string)
| IndexError (msg : string).

(** The mutable state of a run: the temporary files that exist, the events
    so far, how often [interrupted] has been read, the module-level
    [current_segments] and the local [wav_path] of [transcribe]. *)
Record State : Type := mkState {
  files : list string;
  events : list Event;
  flag_reads : nat;
  current_segments : list Segment;
  wav_path : option string
}.

(** The state of a fresh process in which the files [fs] exist. *)
Definition start_state (fs : list string) : State :=
  mkState fs [] 0 [] None.

(** Computations that change the state and return or raise. *)
Definition M (A : Type) : Type := State -> (Exn + A) * State.

Definition ret {A : Type} (a : A) : M A := fun st => (inr a, st).

Definition raise {A : Type} (e : Exn) : M A := fun st => (inl e, st).

Definition bind {A B : Type} (c : M A) (k : A -> M B) : M B :=
  fun st =>
    match c st with
    | (inr a, st') => k a st'
    | (inl e, st') => (inl e, st')
    end.

(** [try: body finally: cleanup] *)
Definition try_finally {A : Type} (body : M A) (cleanup : M unit) : M A :=
  fun st =>
    match body st with
    | (outcome, st') =>
        match cleanup st' with
        | (inr _, st'') => (outcome, st'')
        | (inl e, st'') => (inl e, st'')
        end
    end.

Notation "x <- c1 ;; c2" := (bind c1 (fun x => c2))
  (at level 61, c1 at next level, right associativity).
Notation "c1 ;;; c2" := (bind c1 (fun _ => c2))
  (at level 61, right associativity).

Definition emit (e : Event) : M unit :=
  fun st => (inr tt, mkState (files st) (events st ++ [e]) (flag_reads st)
                             (current_segments st) (wav_path st)).

Definition when (b : bool) (c : M unit) : M unit := if b then c else ret tt.

(** [progress(stage, percent, message)]; the message text is not kept. *)
Definition progress (stage : string) (percent : nat) : M unit :=
  emit (Progress stage percent).

Definition create_file (path : string) : M unit :=
  fun st => (inr tt, mkState (path :: files st) (events st) (flag_reads st)
                             (current_segments st) (wav_path st)).

Definition set_current_segments (segs : list Segment) : M unit :=
  fun st => (inr tt, mkState (files st) (events st) (flag_reads st) segs (wav_path st)).

Definition get_current_segments : M (list Segment) :=
  fun st => (inr (current_segments st), st).

Definition set_wav_path (p : option string) : M unit :=
  fun st => (inr tt, mkState (files st) (events st) (flag_reads st)
                             (current_segments st) p).

Definition get_wav_path : M (option string) :=
  fun st => (inr (wav_path st), st).

(** [safe_unlink]: nothing for [None], an empty path or a missing file. *)
Definition safe_unlink (file_path : option string) : M unit :=
  fun st =>
    match file_path with
    | Some path =>
        if Py.truthy path && existsb (String.eqb path) (files st) then
          (inr tt, mkState (filter (fun f => negb (String.eqb path f)) (files st))
                           (events st ++ [Unlink path]) (flag_reads st)
                           (current_segments st) (wav_path st))
        else (inr tt, st)
    | None => (inr tt, st)
    end.

(** The strings that the copy loop treats as bare punctuation. *)
Definition punctuation : list string :=
  ["!"; "."; "?"; "..."; "！"; "。"; "？"]%string.

(** [language and language != "en" and model_size == "distil-large-v3"]:
    whether [run_transcription] switches to the multilingual model. *)
Definition switches_model (model_size : string) (language : option string) : bool :=
  Py.truthy_opt language
  && negb (String.eqb (Py.get language EmptyString) "en")
  && String.eqb model_size "distil-large-v3".

Section Run.

(** [str.strip] and [str.splitlines]. *)
Variable strip : string -> string.
Variable splitlines : string -> list string.

Variable w : World.

(** The value of the flag at its [n]-th reading. *)
Definition interrupted_at (n : nat) : bool :=
  match sigint_before_read w with
  | Some t => (t <=? n)%nat
  | None => false
  end.

(** One reading of the global [interrupted]. *)
Definition read_interrupted : M bool :=
  fun st => (inr (interrupted_at (flag_reads st)),
             mkState (files st) (events st) (S (flag_reads st))
                     (current_segments st) (wav_path st)).

(** [lines[-1]] *)
Definition last_line (lines : list string) : M string :=
  match lines with
  | [] => raise (IndexError "list index out of range")
  | l :: lines' => ret (last lines' l)
  end.

Definition convert_to_wav (stream : bool) : M string :=
  when stream (progress "converting" 5) ;;;
  let temp_wav := temp_wav_name w in
  create_file temp_wav ;;;
  emit (RunFfmpeg temp_wav) ;;;
  if negb (ffmpeg_returncode w =? 0)%Z then
    safe_unlink (Some temp_wav) ;;;
    error_line <- (if Py.truthy (ffmpeg_stderr w)
                   then last_line (splitlines (strip (ffmpeg_stderr w)))
                   else ret "ffmpeg failed"%string) ;;
    raise (RuntimeError ("Audio conversion failed: " ++ error_line))
  else ret temp_wav.

(** Whether the copy loop keeps a stripped text. *)
Definition keeps (text : string) : bool :=
  Py.truthy text && negb (existsb (String.eqb text) punctuation).

(** The dictionary appended for a raw segment with stripped text [text]. *)
Definition to_segment (raw : RawSegment) (text : string) : Segment :=
  {| seg_start := Some (Py.round2 (Py.get (raw_start raw) 0));
     seg_end := Some (Py.round2 (Py.get (raw_end raw) 0));
     seg_text := Some text;
     seg_speaker := None |}.

(** The loop copying the engine's segments into [current_segments]. *)
Fixpoint copy_loop (raws : list RawSegment) : M unit :=
  match raws with
  | [] => ret tt
  | raw :: raws' =>
      stop <- read_interrupted ;;
      if stop then ret tt
      else
        let text := strip (Py.get (raw_text raw) EmptyString) in
        (if keeps text then
           segs <- get_current_segments ;;
           set_current_segments (segs ++ [to_segment raw text])
         else ret tt) ;;;
        copy_loop raws'
  end.

(** The call of [mlx_whisper.transcribe]: the [language] argument is passed
    only when it is given. *)
Definition call_whisper (effective_model : string) (language : option string)
    : RawResult :=
  whisper w effective_model (if Py.truthy_opt language then language else None).

(** [raw_result.get("language") or language or "auto"] *)
Definition detect_language (raw_result : RawResult) (language : option string)
    : string :=
  if Py.truthy_opt (raw_language raw_result) then Py.get (raw_language raw_result) EmptyString
  else if Py.truthy_opt language then Py.get language EmptyString
  else "auto"%string.

Definition run_transcription (model_size : string) (language : option string)
    (stream : bool) : M (list Segment * string * string) :=
  let switch := switches_model model_size language in
  let effective_model := if switch then "large-v3"%string else model_size in
  when (switch && stream) (progress "transcription" 12) ;;;
  when stream (progress "transcription" 15) ;;;
  when stream (progress "transcription" 20) ;;;
  emit (RunWhisper effective_model) ;;;
  let raw_result := call_whisper effective_model language in
  when stream (progress "transcription" 60) ;;;
  let detected_language := detect_language raw_result language in
  set_current_segments [] ;;;
  copy_loop (Py.get (raw_segments raw_result) []) ;;;
  segs <- get_current_segments ;;
  ret (segs, detected_language, effective_model).

Definition run_senko_diarization (wav : string) (stream : bool) : M (list Interval) :=
  when stream (progress "diarization" 65) ;;;
  when stream (progress "diarization" 70) ;;;
  emit (RunSenko wav) ;;;
  let speaker_segments := Py.get (senko_merged_segments w) [] in
  when stream (progress "diarization" 85) ;;;
  ret speaker_segments.

(** The result dictionary, without its timing and file-name entries. *)
Record Result : Type := mkResult {
  success : bool;
  model : string;
  result_language : string;
  result_duration : Q;
  result_segments : list Segment;
  speakers : list SpeakerSummary;
  has_diarization : bool;
  transcription : string;
  is_partial : bool;
  metadata_speakers : list string
}.

(** [executor.submit(f)]: the worker runs [f] and the future keeps how it
    ended. *)
Definition submit {A : Type} (c : M A) : M (Exn + A) :=
  fun st => match c st with (outcome, st') => (inr outcome, st') end.

(** [future.result()] *)
Definition future_result {A : Type} (fut : Exn + A) : M A :=
  match fut with
  | inl e => raise e
  | inr a => ret a
  end.

Definition transcribe (config : TranscriptionConfig) : M Result :=
  let stream := stream_progress config in
  if negb (audio_exists w) then
    raise (FileNotFoundError ("Audio file not found: " ++ audio_path config))
  else
  let duration := probed_duration w in
  when stream (progress "starting" 0) ;;;
  set_wav_path None ;;;
  try_finally
    (wav_future <- (if enable_diarization config
                    then fut <- submit (convert_to_wav stream) ;; ret (Some fut)
                    else ret None) ;;
     transcribed <- run_transcription (model_size config) (language config) stream ;;
     let '(segs, detected_language, effective_model) := transcribed in
     match wav_future with
     | Some fut => path <- future_result fut ;; set_wav_path (Some path)
     | None => ret tt
     end ;;;
     wav <- get_wav_path ;;
     go <- (if enable_diarization config then
              if Py.truthy_opt wav then
                stop <- read_interrupted ;; ret (negb stop)
              else ret false
            else ret false) ;;
     segs <- (if go then
                speaker_segments <-
                  run_senko_diarization (Py.get wav EmptyString) stream ;;
                ret (assign_speakers segs speaker_segments)
              else
                skipped <- (if enable_diarization config then read_interrupted
                            else ret false) ;;
                ret segs) ;;
     set_current_segments segs ;;;
     let speakers := build_speaker_summary segs in
     when stream (progress "complete" 100) ;;;
     partial <- read_interrupted ;;
     ret {| success := true;
            model := effective_model;
            result_language := detected_language;
            result_duration := Py.round2 duration;
            result_segments := segs;
            speakers := speakers;
            has_diarization := enable_diarization config;
            transcription :=
              strip (String.concat " "
                       (map (fun s => Py.get (seg_text s) EmptyString) segs));
            is_partial := partial;
            metadata_speakers := map id speakers |})
    (wav <- get_wav_path ;; safe_unlink wav).

End Run.

End Pipeline.

Import Aligner Formatter Pipeline.

(** ** Definitions used to state the properties *)

(** One pass of the comparison in the probe loop. *)
Definition keep_best (s e : Q) (acc : Q * option string) (speaker_seg : Interval)
    : Q * option string :=
  if Py.Qltb (fst acc) (overlap s e speaker_seg)
  then (overlap s e speaker_seg, Some (label_of speaker_seg))
  else acc.

(** The comparison run over a whole list of intervals. *)
Definition best_of (s e : Q) (l : list Interval) (acc : Q * option string)
    : Q * option string :=
  fold_left (keep_best s e) l acc.

(** The candidates that the probe loop visits: those before the first
    interval that does not start before the segment's end. *)
Fixpoint candidates (rest : list Interval) (e : Q) : list Interval :=
  match rest with
  | [] => []
  | speaker_seg :: rest' =>
      if Py.Qltb (start_of speaker_seg) e then speaker_seg :: candidates rest' e
      else []
  end.


(** What the sweep does with a segment once the best label is known. *)
Definition relabel (best_speaker : option string) (seg : Segment) : Segment :=
  match best_speaker with
  | Some label => if Py.truthy label then set_speaker seg label else seg
  | None => seg
  end.

(** Same [start], [end] and [text] entries. *)
Definition same_span_and_text (a b : Segment) : Prop :=
  seg_start a = seg_start b /\ seg_end a = seg_end b /\ seg_text a = seg_text b.

(** The number of colons in a string. *)
Fixpoint count_colons (s : string) : nat :=
  match s with
  | EmptyString => 0
  | String c s' => (if Ascii.eqb c ":" then 1 else 0) + count_colons s'
  end.

(** A segment and an interval with all their entries present. *)
Definition seg (s e : Q) (text : string) : Segment :=
  mkSegment (Some s) (Some e) (Some text) None.

Definition spk (s e : Q) (label : string) : Interval :=
  mkInterval (Some s) (Some e) (Some label).





(** The stripped text of a raw segment. *)
Definition stripped (strip : string -> string) (raw : RawSegment) : string :=
  strip (Py.get (raw_text raw) EmptyString).

(** The segments that the copy loop makes of a list of raw segments when it
    is not interrupted. *)
Definition transcript (strip : string -> string) (raws : list RawSegment)
    : list Segment :=
  map (fun raw => to_segment raw (stripped strip raw))
      (filter (fun raw => keeps (stripped strip raw)) raws).

(** The readings of the flag made by a copy loop over [n] raw segments that
    copies [k] of them: one more than [k] when the loop breaks. *)
Definition reads_after (k n : nat) : nat := if (k <? n)%nat then S k else k.

(** The model that a run with [config] transcribes with, and the raw
    segments that the engine returns to it. *)
Definition effective_model_of (config : TranscriptionConfig) : string :=
  if switches_model (model_size config) (language config)
  then "large-v3"%string else model_size config.

Definition engine_segments (w : World) (config : TranscriptionConfig)
    : list RawSegment :=
  Py.get (raw_segments (call_whisper w (effective_model_of config) (language config))) [].

(** The text of a segment is what is left of a raw text after stripping, is
    not empty and is not bare punctuation. *)
Definition spoken_text (strip : string -> string) (raws : list RawSegment)
    (sg : Segment) : Prop :=
  exists raw, In raw raws /\
              seg_text sg = Some (stripped strip raw) /\
              stripped strip raw <> EmptyString /\
              ~ In (stripped strip raw) punctuation.

(** The message of the error that a failed conversion raises: the last line
    of the stripped diagnostics, or a fixed text when there are none.
    [None] when the diagnostics are blank, where [lines[-1]] fails. *)
Definition diagnostic_line (strip : string -> string)
    (splitlines : string -> list string) (stderr : string) : option string :=
  if Py.truthy stderr then
    match splitlines (strip stderr) with
    | [] => None
    | l :: lines => Some (last lines l)
    end
  else Some "ffmpeg failed"%string.

(** The events of [run_transcription]. *)
Definition transcription_events (switch stream : bool) (effective_model : string)
    : list Event :=
  (if switch && stream then [Progress "transcription" 12] else [])
  ++ (if stream then [Progress "transcription" 15; Progress "transcription" 20] else [])
  ++ [RunWhisper effective_model]
  ++ (if stream then [Progress "transcription" 60] else []).

(** The events of a run of the converter. *)
Definition conversion_events (stream : bool) (temp_wav : string) : list Event :=
  (if stream then [Progress "converting" 5] else []) ++ [RunFfmpeg temp_wav].

(** *** A concrete run *)

(** Stand-ins for [str.strip] and [str.splitlines] on texts whose only
    white space is the blank and the line feed. *)
Definition is_blank (c : ascii) : bool := Ascii.eqb c " " || Ascii.eqb c "010".

Fixpoint lstrip (s : string) : string :=
  match s with
  | EmptyString => EmptyString
  | String c s' => if is_blank c then lstrip s' else s
  end.

Fixpoint rstrip (s : string) : string :=
  match s with
  | EmptyString => EmptyString
  | String c s' =>
      match rstrip s' with
      | EmptyString => if is_blank c then EmptyString else String c EmptyString
      | rest => String c rest
      end
  end.

Definition strip_blanks (s : string) : string := rstrip (lstrip s).

Fixpoint lines_from (s : string) (line : string) : list string :=
  match s with
  | EmptyString =>
      match line with
      | EmptyString => []
      | _ => [line]
      end
  | String c s' =>
      if Ascii.eqb c "010" then line :: lines_from s' EmptyString
      else lines_from s' (line ++ String c EmptyString)
  end.

Definition split_lines (s : string) : list string := lines_from s EmptyString.

Definition line_feed : string := String "010" EmptyString.

Definition example_raws : list RawSegment :=
  [ mkRawSegment (Some 0) (Some (5 # 2)) (Some " Hello there. "%string);
    mkRawSegment (Some (5 # 2)) (Some 3) (Some " ... "%string);
    mkRawSegment (Some 3) (Some 6) (Some " How are you?"%string) ].

(** A world with an audio file of six seconds and two speakers, in which
    the converter ends with [returncode] and the interrupt arrives as
    [sigint] says. *)
Definition example_world (returncode : Z) (sigint : option nat) : World :=
  {| audio_exists := true;
     probed_duration := 6;
     temp_wav_name := "/tmp/tmpk3v1.wav";
     ffmpeg_returncode := returncode;
     ffmpeg_stderr :=
       ("ffmpeg version 6.0" ++ line_feed
        ++ "clip.mp3: Invalid data found" ++ line_feed)%string;
     whisper := fun _ _ => mkRawResult (Some "en"%string) (Some example_raws);
     senko_merged_segments :=
       Some [spk 3 6 "SPEAKER_01"; spk 0 (5 # 2) "SPEAKER_00"];
     sigint_before_read := sigint |}.

Definition example_config : TranscriptionConfig :=
  {| audio_path := "clip.mp3";
     model_size := "distil-large-v3";
     language := None;
     enable_diarization := true;
     output_format := "json";
     output_path := None;
     quiet := false;
     stream_progress := true;
     senko_warmup := false |}.

(** *** Further definitions for the aligner and the summary *)

(** A segment is left as it was or has gained the non-empty label of an
    interval that overlaps it. *)
Definition keeps_or_gains_label (ivs : list Interval) (sg sg' : Segment) : Prop :=
  sg' = sg \/
  exists best, In best ivs /\
               label_of best <> EmptyString /\
               0 < overlap (seg_start_of sg) (seg_end_of sg) best /\
               sg' = set_speaker sg (label_of best).

(** Intervals that start together are one and the same interval. *)
Definition starts_identify (ivs : list Interval) : Prop :=
  forall a b, In a ivs -> In b ivs -> start_of a == start_of b -> a = b.

(** The segments that carry the speaker [label]. *)
Definition spoken_by (label : string) (segs : list Segment) : list Segment :=
  filter (fun sg => match seg_speaker sg with
                    | Some l => String.eqb l label
                    | None => false
                    end) segs.

(** The number of segments recorded for [label] in a summary dictionary. *)
Fixpoint count_in (label : string) (summary : list (string * Stats)) : nat :=
  match summary with
  | [] => 0
  | (k, stats) :: summary' =>
      ((if String.eqb k label then segments stats else 0) + count_in label summary')%nat
  end.

(** The order of [str] values, as a relation: the order of the code points,
    which is the order of the UTF-8 bytes. *)
Definition label_le (a b : string) : Prop := String.leb a b = true.

(** *** Further definitions for the pipeline *)

(** The files left when [path] is removed. *)
Definition without (path : string) (fs : list string) : list string :=
  filter (fun f => negb (String.eqb path f)) fs.


(** The error that ends a failed conversion. *)
Definition conversion_error (strip : string -> string)
    (splitlines : string -> list string) (stderr : string) : Exn :=
  match diagnostic_line strip splitlines stderr with
  | Some line => RuntimeError ("Audio conversion failed: " ++ line)
  | None => IndexError "list index out of range"
  end.

(** The files after a run of the converter that started with the files
    [fs]. *)
Definition files_after_conversion (w : World) (fs : list string) : list string :=
  if (ffmpeg_returncode w =? 0)%Z then temp_wav_name w :: fs
  else if Py.truthy (temp_wav_name w) then without (temp_wav_name w) fs
       else temp_wav_name w :: fs.

(** The events of the converter: those of its run and, when it fails, the
    removal of its file. *)
Definition converter_trace (w : World) (stream : bool) : list Event :=
  conversion_events stream (temp_wav_name w)
  ++ (if (ffmpeg_returncode w =? 0)%Z then []
      else if Py.truthy (temp_wav_name w) then [Unlink (temp_wav_name w)] else []).

(** *** The signal handler *)

(** What the handler works on: the global [interrupted], the lines written
    so far and, once [sys.exit] has been called, the exit status. *)
Record Process : Type := mkProcess {
  interrupted : bool;
  written : list Event;
  exit_status : option Z
}.

(** [signal_handler]: the first signal sets the flag and reports it, a
    later one ends the process with status 1. *)
Definition signal_handler (p : Process) : Process :=
  if negb (interrupted p) then
    mkProcess true (written p ++ [Progress "interrupt" 0]) (exit_status p)
  else
    mkProcess (interrupted p) (written p) (Some 1%Z).

(** [n] signals in a row; none is handled once the process has ended. *)
Fixpoint deliver (n : nat) (p : Process) : Process :=
  match n with
  | O => p
  | S n' =>
      match exit_status p with
      | Some _ => p
      | None => deliver n' (signal_handler p)
      end
  end.

(** The process as the module leaves it when it is loaded. *)
Definition fresh_process : Process := mkProcess false [] None.

(** *** The text and markdown reports *)

(** The entries of the metadata dictionary that the reports read. *)
Record Metadata : Type := mkMetadata {
  meta_language : option string;
  meta_duration : option Q
}.

(** [s * n] *)
Fixpoint times (s : string) (n : nat) : string :=
  match n with
  | O => EmptyString
  | S n' => (s ++ times s n')%string
  end.

(** [str(n)] for a length or a count. *)
Definition str_of_nat (n : nat) : string := Py.str_of_Z (Z.of_nat n).

(** The line of the text report for one speaker and for one segment. *)
Definition txt_speaker_line (speaker : SpeakerSummary) : string :=
  ("  - " ++ id speaker ++ ": " ++ total_time speaker ++ " "
   ++ "(" ++ str_of_nat (segment_count speaker) ++ " segments)")%string.

Definition txt_segment_line (sg : Segment) : string :=
  let start := format_time (seg_start_of sg) in
  let end_ := format_time (seg_end_of sg) in
  let speaker := Py.get (seg_speaker sg) "Unknown"%string in
  let text := Py.get (seg_text sg) EmptyString in
  ("[" ++ speaker ++ "] (" ++ start ++ "-" ++ end_ ++ ") " ++ text)%string.

(** The list [lines] of [format_as_txt] before it is joined. *)
Definition txt_lines (segs : list Segment) (speakers : list SpeakerSummary)
    (metadata : Metadata) : list string :=
  ([ times "=" 60;
     "Audio Transcription Result"%string;
     times "=" 60;
     ("Language: " ++ Py.get (meta_language metadata) "auto")%string;
     ("Duration: " ++ format_time (Py.get (meta_duration metadata) 0))%string;
     ("Speakers: " ++ str_of_nat (List.length speakers))%string;
     EmptyString ]
   ++ (match speakers with
       | [] => []
       | _ :: _ =>
           ["Speaker Summary:"%string] ++ map txt_speaker_line speakers ++ [EmptyString]
       end)
   ++ ["Transcription:"%string; times "-" 40]
   ++ map txt_segment_line segs)%list.

Definition format_as_txt (segs : list Segment) (speakers : list SpeakerSummary)
    (metadata : Metadata) : string :=
  String.concat line_feed (txt_lines segs speakers metadata).

(** The line of the markdown report for one speaker, and the three lines
    for one segment. *)
Definition markdown_speaker_line (speaker : SpeakerSummary) : string :=
  ("- **" ++ id speaker ++ "**: " ++ total_time speaker ++ " "
   ++ "(" ++ str_of_nat (segment_count speaker) ++ " 段)")%string.

Definition markdown_segment_lines (sg : Segment) : list string :=
  let start := format_time (seg_start_of sg) in
  let end_ := format_time (seg_end_of sg) in
  let speaker := Py.get (seg_speaker sg) "Unknown"%string in
  let text := Py.get (seg_text sg) EmptyString in
  [ ("**" ++ speaker ++ "** `" ++ start ++ "-" ++ end_ ++ "`")%string;
    ("> " ++ text)%string;
    EmptyString ].

(** The list [lines] of [format_as_markdown] before it is joined. *)
Definition markdown_lines (segs : list Segment) (speakers : list SpeakerSummary)
    (metadata : Metadata) : list string :=
  ([ "# 转录结果"%string; EmptyString;
     "## 元数据"%string;
     ("- **语言**: " ++ Py.get (meta_language metadata) "auto")%string;
     ("- **时长**: " ++ format_time (Py.get (meta_duration metadata) 0))%string;
     ("- **说话人**: " ++ str_of_nat (List.length speakers) ++ " 人")%string;
     EmptyString ]
   ++ (match speakers with
       | [] => []
       | _ :: _ =>
           ["## 说话人统计"%string] ++ map markdown_speaker_line speakers ++ [EmptyString]
       end)
   ++ ["## 转录内容"%string; EmptyString]
   ++ flat_map markdown_segment_lines segs)%list.

Definition format_as_markdown (segs : list Segment) (speakers : list SpeakerSummary)
    (metadata : Metadata) : string :=
  String.concat line_feed (markdown_lines segs speakers metadata).

(** *** Further concrete runs *)

(** The example world with silence for the diarization engine to hear. *)
Definition silent_world : World :=
  {| audio_exists := true;
     probed_duration := 6;
     temp_wav_name := "/tmp/tmpk3v1.wav";
     ffmpeg_returncode := 0;
     ffmpeg_stderr := EmptyString;
     whisper := fun _ _ => mkRawResult (Some "en"%string) (Some example_raws);
     senko_merged_segments := None;
     sigint_before_read := None |}.

(** The example configuration with diarization switched off. *)
Definition plain_config : TranscriptionConfig :=
  {| audio_path := "clip.mp3";
     model_size := "distil-large-v3";
     language := Some "de"%string;
     enable_diarization := false;
     output_format := "txt";
     output_path := None;
     quiet := true;
     stream_progress := false;
     senko_warmup := false |}.

(** ** Facts about the built-ins *)

Lemma Qltb_lt (x y : Q) : Py.Qltb x y = true <-> x < y.
Proof.
  unfold Py.Qltb. rewrite negb_true_iff.
  split; intro H.
  - apply Qnot_le_lt. intro Hle. apply Qle_bool_iff in Hle. congruence.
  - destruct (Qle_bool y x) eqn:E; [|reflexivity].
    apply Qle_bool_iff in E. exfalso. apply (Qlt_not_le _ _ H E).
Qed.

Lemma Qltb_ge (x y : Q) : Py.Qltb x y = false <-> y <= x.
Proof.
  unfold Py.Qltb. rewrite negb_false_iff. apply Qle_bool_iff.
Qed.

(** ** The aligner *)

Lemma assign_one_eq ordered idx sg :
  assign_one ordered idx sg =
  (advance (skipn idx ordered) idx (seg_start_of sg),
   relabel (snd (probe (skipn (advance (skipn idx ordered) idx (seg_start_of sg)) ordered)
                       (seg_start_of sg) (seg_end_of sg) 0 None)) sg).
Proof.
  unfold assign_one.
  destruct (probe _ _ _ _ _) as [bo bs]. reflexivity.
Qed.

Lemma relabel_frame best sg : same_span_and_text sg (relabel best sg).
Proof.
  unfold relabel, same_span_and_text.
  destruct best as [l|]; [destruct (Py.truthy l)|]; simpl; auto.
Qed.

Lemma relabel_span best sg :
  seg_start_of (relabel best sg) = seg_start_of sg /\
  seg_end_of (relabel best sg) = seg_end_of sg.
Proof.
  destruct (relabel_frame best sg) as (Hs & He & _).
  unfold seg_start_of, seg_end_of. rewrite <- Hs, <- He. auto.
Qed.

Lemma relabel_twice best sg : relabel best (relabel best sg) = relabel best sg.
Proof.
  unfold relabel.
  destruct best as [l|]; [destruct (Py.truthy l) eqn:E|]; simpl; try rewrite E; reflexivity.
Qed.

Lemma sweep_frame ordered : forall segs idx,
  Forall2 same_span_and_text segs (sweep ordered idx segs).
Proof.
  induction segs as [|sg segs IH]; intro idx; simpl.
  - constructor.
  - rewrite assign_one_eq. constructor.
    + apply relabel_frame.
    + apply IH.
Qed.

Lemma sweep_twice ordered : forall segs idx,
  sweep ordered idx (sweep ordered idx segs) = sweep ordered idx segs.
Proof.
  induction segs as [|sg segs IH]; intro idx; simpl.
  - reflexivity.
  - rewrite assign_one_eq. simpl. rewrite assign_one_eq.
    destruct (relabel_span
                (snd (probe (skipn (advance (skipn idx ordered) idx (seg_start_of sg)) ordered)
                            (seg_start_of sg) (seg_end_of sg) 0 None)) sg) as [Hs He].
    rewrite Hs, He, relabel_twice, IH. reflexivity.
Qed.

(** C2.  On the segments [(0,5,"a"), (5,10,"b")] and the intervals
    [(0,4,"S1"), (4,9,"S2"), (9,12,"S1")], [assign_speakers] labels "a" with
    "S1" (overlap 4 against 1 with "S2") and "b" with "S2" (overlap 4 against
    1 with the second "S1" interval). *)
Theorem assign_speakers_sweep_example :
  assign_speakers [seg 0 5 "a"; seg 5 10 "b"]
                  [spk 0 4 "S1"; spk 4 9 "S2"; spk 9 12 "S1"]
  = [set_speaker (seg 0 5 "a") "S1"; set_speaker (seg 5 10 "b") "S2"]
  /\ overlap 0 5 (spk 0 4 "S1") = 4 /\ overlap 0 5 (spk 4 9 "S2") = 1
  /\ overlap 0 5 (spk 9 12 "S1") = 0
  /\ overlap 5 10 (spk 4 9 "S2") = 4 /\ overlap 5 10 (spk 9 12 "S1") = 1
  /\ overlap 5 10 (spk 0 4 "S1") = 0.
Proof.
  repeat split; reflexivity.
Qed.

Lemma assign_speakers_frame_all (segs : list Segment) (ivs : list Interval) :
  Forall2 same_span_and_text segs (assign_speakers segs ivs).
Proof.
  unfold assign_speakers. destruct ivs as [|i ivs].
  - induction segs; constructor; [repeat split|assumption].
  - apply sweep_frame.
Qed.

(** C4.  [assign_speakers] returns as many segments as it is given, and each
    keeps its [start], [end] and [text]; only [speaker] can differ. *)
Theorem assign_speakers_frame (segs : list Segment) (ivs : list Interval) :
  List.length (assign_speakers segs ivs) = List.length segs /\
  Forall2 same_span_and_text segs (assign_speakers segs ivs).
Proof.
  pose proof (assign_speakers_frame_all segs ivs) as H.
  split; [|exact H].
  symmetry. eapply Forall2_length. exact H.
Qed.

Lemma sweep_no_intervals : forall segs idx, sweep [] idx segs = segs.
Proof.
  induction segs as [|sg segs IH]; intro idx; simpl.
  - reflexivity.
  - rewrite assign_one_eq, skipn_nil. simpl advance.
    rewrite skipn_nil. simpl. rewrite IH. reflexivity.
Qed.

(** C7.  With an empty interval list [assign_speakers] returns the segment
    list as it is: no segment gains a [speaker] entry, and the call is an
    ordinary return.  The guard is not what makes it so: the sweep over an
    empty working copy leaves every segment as it is, too. *)
Theorem assign_speakers_no_intervals (segs : list Segment) :
  assign_speakers segs [] = segs /\
  map seg_speaker (assign_speakers segs []) = map seg_speaker segs /\
  sweep (sorted_by_start []) 0 segs = segs.
Proof.
  split; [reflexivity|]. split; [reflexivity|].
  simpl sorted_by_start. apply sweep_no_intervals.
Qed.

(** C8.  [assign_speakers] is idempotent: run again on its own output with
    the same intervals, it returns that output. *)
Theorem assign_speakers_idempotent (segs : list Segment) (ivs : list Interval) :
  assign_speakers (assign_speakers segs ivs) ivs = assign_speakers segs ivs.
Proof.
  unfold assign_speakers. destruct ivs as [|i ivs].
  - reflexivity.
  - apply sweep_twice.
Qed.

Lemma Qmax_zero_l (x : Q) : x <= 0 -> Qmax 0 x = 0.
Proof.
  intro H. unfold Qmax, GenericMinMax.gmax.
  destruct (0 ?= x) eqn:E; try reflexivity.
  apply Qlt_alt in E. lra.
Qed.








Lemma best_of_app s e l1 l2 acc :
  best_of s e (l1 ++ l2) acc = best_of s e l2 (best_of s e l1 acc).
Proof.
  unfold best_of. apply fold_left_app.
Qed.


(** The probe loop is the comparison run over the candidates it visits. *)
Lemma probe_candidates s e : forall rest bo bs,
  probe rest s e bo bs = best_of s e (candidates rest e) (bo, bs).
Proof.
  induction rest as [|i rest IH]; intros bo bs; simpl.
  - reflexivity.
  - destruct (Py.Qltb (start_of i) e); [|reflexivity].
    unfold best_of. simpl. unfold keep_best at 2. simpl.
    destruct (Py.Qltb bo (overlap s e i)); apply IH.
Qed.

Lemma overlap_zero_or_pos s e i : overlap s e i = 0 \/ 0 < overlap s e i.
Proof.
  unfold overlap.
  destruct (Qlt_le_dec 0 (Qmin e (end_of i) - Qmax s (start_of i))) as [H|H].
  - right. eapply Qlt_le_trans; [exact H|apply Q.le_max_r].
  - left. apply Qmax_zero_l. exact H.
Qed.

(** Run from nothing, the comparison ends either with no label, every
    overlap being zero, or on the first interval of greatest overlap. *)
Lemma best_of_first_max s e : forall l,
  (best_of s e l (0, None) = (0, None) /\ Forall (fun i => overlap s e i = 0) l) \/
  (exists pre best post,
      l = pre ++ best :: post /\
      best_of s e l (0, None) = (overlap s e best, Some (label_of best)) /\
      0 < overlap s e best /\
      Forall (fun j => overlap s e j < overlap s e best) pre /\
      Forall (fun j => overlap s e j <= overlap s e best) post).
Proof.
  induction l as [|x l IH] using rev_ind.
  - left. split; [reflexivity|constructor].
  - rewrite best_of_app. simpl.
    destruct IH as [[Hr Hz]|(pre & best & post & Hl & Hr & Hpos & Hpre & Hpost)];
      rewrite Hr; unfold keep_best; simpl.
    + destruct (overlap_zero_or_pos s e x) as [Hx|Hx].
      * left. rewrite Hx. split; [reflexivity|].
        apply Forall_app. split; [exact Hz|]. constructor; [exact Hx|constructor].
      * right. exists l, x, []. apply Qltb_lt in Hx. rewrite Hx.
        apply Qltb_lt in Hx.
        repeat split; auto.
        eapply Forall_impl; [|exact Hz]. simpl. intros a Ha. rewrite Ha. exact Hx.
    + right. destruct (Py.Qltb (overlap s e best) (overlap s e x)) eqn:E.
      * apply Qltb_lt in E. exists l, x, [].
        repeat split; auto; [lra|]. subst l.
        apply Forall_app. split.
        -- eapply Forall_impl; [|exact Hpre]. simpl. intros a Ha. lra.
        -- constructor; [exact E|].
           eapply Forall_impl; [|exact Hpost]. simpl. intros a Ha. lra.
      * apply Qltb_ge in E. exists pre, best, (post ++ [x]).
        repeat split; auto.
        -- subst l. rewrite <- app_assoc. reflexivity.
        -- apply Forall_app. split; [exact Hpost|]. constructor; [exact E|constructor].
Qed.

(** *** The sorted working copy *)

Lemma insert_by_start_In x i : forall l,
  In x (insert_by_start i l) <-> x = i \/ In x l.
Proof.
  induction l as [|y l IH]; simpl.
  - intuition.
  - destruct (Qle_bool (start_of i) (start_of y)); simpl.
    + intuition.
    + rewrite IH. intuition.
Qed.

Lemma sorted_by_start_In x : forall l, In x (sorted_by_start l) <-> In x l.
Proof.
  induction l as [|i l IH]; simpl.
  - tauto.
  - rewrite insert_by_start_In, IH. intuition.
Qed.





Lemma candidates_incl e : forall rest i, In i (candidates rest e) -> In i rest.
Proof.
  induction rest as [|x rest IH]; simpl; intros i Hi.
  - exact Hi.
  - destruct (Py.Qltb (start_of x) e); simpl in Hi; [|contradiction].
    destruct Hi as [->|Hi]; auto.
Qed.

Lemma skipn_incl {A} : forall n (l : list A) x, In x (skipn n l) -> In x l.
Proof.
  induction n as [|n IH]; intros l x Hx.
  - exact Hx.
  - destruct l as [|a l]; simpl in Hx; [contradiction|].
    right. apply IH. exact Hx.
Qed.



(** *** The cursor *)







Lemma Forall2_map_same {A B} (R : A -> B -> Prop) (f : A -> B) : forall l,
  (forall x, In x l -> R x (f x)) -> Forall2 R l (map f l).
Proof.
  induction l as [|a l IH]; intro H; simpl; constructor.
  - apply H. left. reflexivity.
  - apply IH. intros x Hx. apply H. right. exact Hx.
Qed.






(** ** The time formatter *)

Lemma count_colons_app (a b : string) :
  count_colons (a ++ b) = (count_colons a + count_colons b)%nat.
Proof.
  induction a as [|c a IH]; simpl.
  - reflexivity.
  - rewrite IH. lia.
Qed.

Lemma digits_no_colon (d : uint) : count_colons (NilEmpty.string_of_uint d) = 0%nat.
Proof.
  induction d; simpl; auto.
Qed.

Lemma str_of_Z_no_colon (n : Z) : count_colons (Py.str_of_Z n) = 0%nat.
Proof.
  unfold Py.str_of_Z, NilZero.string_of_uint.
  destruct (N.to_uint (Z.to_N n)) eqn:E; try reflexivity;
    rewrite <- E; apply digits_no_colon.
Qed.

Lemma str02_of_Z_no_colon (n : Z) : count_colons (Py.str02_of_Z n) = 0%nat.
Proof.
  unfold Py.str02_of_Z.
  pose proof (str_of_Z_no_colon n) as H.
  destruct (Py.str_of_Z n) as [|c [|c' s]]; try reflexivity.
  - simpl in *. exact H.
  - exact H.
Qed.

Lemma format_time_colons (seconds : Q) :
  count_colons (format_time seconds) =
  if (3600 <=? Py.round seconds)%Z then 2%nat else 1%nat.
Proof.
  unfold format_time.
  set (total := Z.max 0 (Py.round seconds)).
  assert (Hh : (0 <? total / 3600)%Z = (3600 <=? Py.round seconds)%Z).
  { destruct (3600 <=? Py.round seconds)%Z eqn:E.
    - apply Z.leb_le in E. apply Z.ltb_lt.
      assert (3600 <= total)%Z by (unfold total; lia).
      Z.div_mod_to_equations. lia.
    - apply Z.leb_gt in E. apply Z.ltb_ge.
      assert (0 <= total < 3600)%Z by (unfold total; lia).
      Z.div_mod_to_equations. lia. }
  rewrite Hh. destruct (3600 <=? Py.round seconds)%Z;
    repeat rewrite count_colons_app;
    repeat rewrite str_of_Z_no_colon; repeat rewrite str02_of_Z_no_colon;
    reflexivity.
Qed.

(** [round] reaches [3600] exactly from [3599.5] on: the tie at [3599.5]
    goes to the even neighbour [3600]. *)
Lemma round_reaches_hour (x : Q) : (3600 <= Py.round x)%Z <-> 7199 # 2 <= x.
Proof.
  unfold Py.round.
  pose proof (Qfloor_le x) as Hlo.
  pose proof (Qlt_floor x) as Hhi.
  rewrite inject_Z_plus in Hhi.
  set (f := Qfloor x) in *.
  assert (Hf : forall z : Z, (f <= z)%Z -> inject_Z f <= inject_Z z).
  { intros z Hz. rewrite <- Zle_Qle. exact Hz. }
  assert (Hg : forall z : Z, (z <= f)%Z -> inject_Z z <= inject_Z f).
  { intros z Hz. rewrite <- Zle_Qle. exact Hz. }
  destruct (Z_lt_le_dec f 3599) as [Hsmall|Hbig].
  - (* the floor is at most 3598 *)
    assert (H1 : inject_Z f <= inject_Z 3598) by (apply Hf; lia).
    split; intro H.
    + exfalso.
      destruct (Qcompare_spec (x - inject_Z f) (1 # 2)) as [E|E|E];
        try destruct (Z.even f); lia.
    + exfalso. change (inject_Z 3598) with (3598 # 1) in H1.
      change (inject_Z 1) with 1 in Hhi. lra.
  - destruct (Z_le_lt_eq_dec _ _ Hbig) as [Hgt|Heq].
    + (* the floor is at least 3600 *)
      assert (H1 : inject_Z 3600 <= inject_Z f) by (apply Hg; lia).
      change (inject_Z 3600) with (3600 # 1) in H1.
      split; intro H.
      * lra.
      * destruct (Qcompare_spec (x - inject_Z f) (1 # 2)) as [E|E|E];
          try destruct (Z.even f); lia.
    + (* the floor is 3599 *)
      rewrite <- Heq in *.
      change (inject_Z 3599) with (3599 # 1) in *.
      change (inject_Z 1) with 1 in Hhi.
      destruct (Qcompare_spec (x - (3599 # 1)) (1 # 2)) as [E|E|E]; simpl.
      * split; intro H; [lra|lia].
      * split; intro H; [lia|lra].
      * split; intro H; [lra|lia].
Qed.

(** C9, as the script has it.  [format_time] writes minutes and seconds and
    puts an hours field in front exactly when the duration, rounded to the
    nearest whole second, reaches one hour -- that is from 3599.5 seconds
    on; 0 seconds gives "0:00", 65 seconds "1:05" and 3661 seconds
    "1:01:01". *)
Theorem format_time_hours_field (seconds : Q) :
  (count_colons (format_time seconds) = 2%nat <-> (3600 <= Py.round seconds)%Z) /\
  (count_colons (format_time seconds) = 1%nat <-> (Py.round seconds < 3600)%Z) /\
  ((3600 <= Py.round seconds)%Z <-> 7199 # 2 <= seconds) /\
  format_time 0 = "0:00"%string /\
  format_time 65 = "1:05"%string /\
  format_time 3661 = "1:01:01"%string.
Proof.
  rewrite format_time_colons.
  repeat split; try reflexivity; try apply round_reaches_hour;
    destruct (3600 <=? Py.round seconds)%Z eqn:E;
    try apply Z.leb_le in E; try apply Z.leb_gt in E; intros; try lia; try discriminate.
Qed.

(** C9, as the claim words it, fails: a duration of 3599.75 seconds has not
    reached one hour and is written with an hours field. *)
Lemma format_time_hours_before_the_hour :
  (14399 # 4) < 3600 /\ format_time (14399 # 4) = "1:00:00"%string /\
  count_colons (format_time (14399 # 4)) = 2%nat.
Proof.
  repeat split.
Qed.

(** ** The pipeline *)

Section RunFacts.

Variable strip : string -> string.
Variable splitlines : string -> list string.
Variable w : World.

Lemma transcript_cons raw raws :
  transcript strip (raw :: raws) =
  (if keeps (stripped strip raw) then [to_segment raw (stripped strip raw)] else [])
  ++ transcript strip raws.
Proof.
  unfold transcript. simpl.
  destruct (keeps (stripped strip raw)); reflexivity.
Qed.

Lemma bind_inr {A B} (c : M A) (k : A -> M B) st a st' :
  c st = (inr a, st') -> bind c k st = k a st'.
Proof.
  intro H. unfold bind. rewrite H. reflexivity.
Qed.

Lemma bind_inl {A B} (c : M A) (k : A -> M B) st e st' :
  c st = (inl e, st') -> bind c k st = (inl e, st').
Proof.
  intro H. unfold bind. rewrite H. reflexivity.
Qed.

Lemma append_kept raw st :
  (if keeps (stripped strip raw) then
     segs <- get_current_segments ;;
     set_current_segments (segs ++ [to_segment raw (stripped strip raw)])
   else ret tt) st
  = (inr tt, mkState (files st) (events st) (flag_reads st)
                     (current_segments st
                      ++ (if keeps (stripped strip raw)
                          then [to_segment raw (stripped strip raw)] else []))
                     (wav_path st)).
Proof.
  destruct (keeps (stripped strip raw)).
  - reflexivity.
  - unfold ret. rewrite app_nil_r. destruct st; reflexivity.
Qed.

(** The copy loop returns normally, having appended the transcript of the
    raw segments it copied; it stops at the first reading of the flag that
    finds it set. *)
Lemma copy_loop_spec : forall raws st,
  exists k,
    (k <= List.length raws)%nat /\
    copy_loop strip w raws st =
    (inr tt, mkState (files st) (events st)
                     (flag_reads st + reads_after k (List.length raws))
                     (current_segments st ++ transcript strip (firstn k raws))
                     (wav_path st)) /\
    (forall j, (j < k)%nat -> interrupted_at w (flag_reads st + j) = false) /\
    ((k < List.length raws)%nat -> interrupted_at w (flag_reads st + k) = true).
Proof.
  induction raws as [|raw raws IH]; intro st.
  - exists 0%nat. split; [simpl; lia|]. split; [|split; [intros; lia|simpl; lia]].
    destruct st. unfold reads_after. simpl.
    rewrite Nat.add_0_r, app_nil_r. reflexivity.
  - simpl copy_loop. fold (stripped strip raw).
    erewrite bind_inr by (unfold read_interrupted; reflexivity).
    destruct (interrupted_at w (flag_reads st)) eqn:Hi.
    + exists 0%nat. split; [simpl; lia|]. split; [|split].
      * unfold ret, reads_after. simpl. rewrite app_nil_r.
        replace (flag_reads st + 1)%nat with (S (flag_reads st)) by lia.
        reflexivity.
      * intros; lia.
      * intros _. rewrite Nat.add_0_r. exact Hi.
    + erewrite bind_inr by (apply append_kept).
      simpl.
      set (st1 := mkState (files st) (events st) (S (flag_reads st))
                          (current_segments st
                           ++ (if keeps (stripped strip raw)
                               then [to_segment raw (stripped strip raw)] else []))
                          (wav_path st)).
      destruct (IH st1) as (k & Hk & Hrun & Hbefore & Hstop).
      exists (S k). split; [simpl; lia|]. split; [|split].
      * rewrite Hrun. unfold st1. simpl.
        rewrite transcript_cons, <- app_assoc.
        replace (S (flag_reads st + reads_after k (List.length raws)))%nat
          with (flag_reads st + reads_after (S k) (S (List.length raws)))%nat.
        -- reflexivity.
        -- unfold reads_after.
           change (S k <? S (List.length raws))%nat with (k <? List.length raws)%nat.
           destruct (k <? List.length raws)%nat; lia.
      * intros j Hj. destruct j as [|j].
        -- rewrite Nat.add_0_r. exact Hi.
        -- replace (flag_reads st + S j)%nat with (flag_reads st1 + j)%nat
             by (unfold st1; simpl; lia).
           apply Hbefore. lia.
      * intro Hlt. replace (flag_reads st + S k)%nat with (flag_reads st1 + k)%nat
          by (unfold st1; simpl; lia).
        apply Hstop. simpl in Hlt. lia.
Qed.

Ltac run_step :=
  cbv [bind when progress emit ret raise set_current_segments get_current_segments
       set_wav_path get_wav_path create_file read_interrupted submit future_result
       try_finally andb];
  cbn [files events flag_reads current_segments wav_path].

Lemma run_transcription_spec m lang stream st :
  let effective_model := if switches_model m lang then "large-v3"%string else m in
  let raw_result := call_whisper w effective_model lang in
  let raws := Py.get (raw_segments raw_result) [] in
  exists k,
    (k <= List.length raws)%nat /\
    run_transcription strip w m lang stream st =
    (inr (transcript strip (firstn k raws), detect_language raw_result lang,
          effective_model),
     mkState (files st)
             (events st
              ++ transcription_events (switches_model m lang) stream effective_model)
             (flag_reads st + reads_after k (List.length raws))
             (transcript strip (firstn k raws))
             (wav_path st)) /\
    (forall j, (j < k)%nat -> interrupted_at w (flag_reads st + j) = false) /\
    ((k < List.length raws)%nat -> interrupted_at w (flag_reads st + k) = true).
Proof.
  intros effective_model raw_result raws.
  unfold run_transcription.
  fold effective_model. fold raw_result. fold raws.
  unfold transcription_events.
  destruct (switches_model m lang), stream; run_step;
    match goal with
    | |- context [copy_loop strip w raws ?s] =>
        destruct (copy_loop_spec raws s) as (k & Hk & Hrun & Hbefore & Hstop);
        exists k; rewrite Hrun; cbn [files events flag_reads current_segments wav_path] in *
    end;
    (split; [exact Hk|]); (split; [|split; assumption]);
    rewrite <- ?app_assoc; reflexivity.
Qed.

Lemma convert_to_wav_ok stream st :
  ffmpeg_returncode w = 0%Z ->
  convert_to_wav strip splitlines w stream st =
  (inr (temp_wav_name w),
   mkState (temp_wav_name w :: files st)
           (events st ++ conversion_events stream (temp_wav_name w))
           (flag_reads st) (current_segments st) (wav_path st)).
Proof.
  intro Hrc. unfold convert_to_wav, conversion_events. rewrite Hrc.
  destruct stream; run_step; rewrite <- ?app_assoc; reflexivity.
Qed.

Lemma filter_out_head (path : string) (fs : list string) :
  filter (fun f => negb (String.eqb path f)) (path :: fs)
  = filter (fun f => negb (String.eqb path f)) fs.
Proof.
  simpl. rewrite String.eqb_refl. reflexivity.
Qed.



Lemma transcript_unlabelled raws :
  Forall (fun sg => seg_speaker sg = None) (transcript strip raws).
Proof.
  unfold transcript. apply Forall_forall. intros sg Hin.
  apply in_map_iff in Hin. destruct Hin as (raw & <- & _). reflexivity.
Qed.

Lemma summary_of_unlabelled : forall segs,
  Forall (fun sg => seg_speaker sg = None) segs -> build_speaker_summary segs = [].
Proof.
  intros segs H. unfold build_speaker_summary.
  assert (Hfold : forall acc, fold_left summary_step segs acc = acc).
  { induction H as [|sg segs Hsg _ IH]; intro acc; simpl.
    - reflexivity.
    - unfold summary_step at 2. rewrite Hsg. apply IH. }
  rewrite Hfold. reflexivity.
Qed.

(** The flag stays set once the signal has arrived. *)
Lemma interrupted_from t n :
  sigint_before_read w = Some t -> (t <= n)%nat -> interrupted_at w n = true.
Proof.
  intros Hs Hn. unfold interrupted_at. rewrite Hs. apply Nat.leb_le. exact Hn.
Qed.

Lemma reads_after_ge k n : (k <= reads_after k n)%nat.
Proof.
  unfold reads_after. destruct (k <? n)%nat; lia.
Qed.

(** C5.  When the flag is found set at the gate before diarization -- the
    interrupt arrived no later than the end of the copy loop, with
    diarization enabled and the conversion done -- the run returns a result
    that is partial, has no speakers and holds the segments that
    transcription produced, none with a speaker; the diarization engine is
    not run.  An interrupt that arrives after the copy loop has finished
    leaves the whole transcript in the result. *)
Theorem transcribe_interrupted_before_diarization config fs t :
  audio_exists w = true ->
  enable_diarization config = true ->
  ffmpeg_returncode w = 0%Z ->
  sigint_before_read w = Some t ->
  (t <= List.length (engine_segments w config))%nat ->
  exists r st',
    transcribe strip splitlines w config (start_state fs) = (inr r, st') /\
    is_partial r = true /\
    speakers r = [] /\
    result_segments r = transcript strip (firstn t (engine_segments w config)) /\
    (t = List.length (engine_segments w config) ->
     result_segments r = transcript strip (engine_segments w config)) /\
    Forall (fun sg => seg_speaker sg = None) (result_segments r) /\
    (forall wav, ~ In (RunSenko wav) (events st')) /\
    current_segments st' = result_segments r.
Proof.
  intros Hexists Hdiar Hrc Hsig Ht.
  assert (Hflag : forall n, (t <= n)%nat -> interrupted_at w n = true)
    by (intros n Hn; exact (interrupted_from t n Hsig Hn)).
  unfold transcribe. rewrite Hexists, Hdiar. cbn [negb].
  unfold start_state.
  destruct (stream_progress config); run_step;
    rewrite convert_to_wav_ok by exact Hrc;
    match goal with
    | |- context [run_transcription strip w ?m ?l ?s ?st] =>
        destruct (run_transcription_spec m l s st) as (k & Hk & Hrun & Hbefore & Hstop);
        rewrite Hrun
    end; fold (effective_model_of config) in *; fold (engine_segments w config) in *;
    cbn [files events flag_reads current_segments wav_path plus] in *;
    (assert (k = t) as ->
        by (destruct (Nat.lt_ge_cases t k) as [Hlt|Hge];
            [specialize (Hbefore t Hlt); rewrite Hflag in Hbefore by lia; discriminate
            |destruct (Nat.lt_ge_cases k (List.length (engine_segments w config)))
               as [Hlt|Hge'];
             [specialize (Hstop Hlt); unfold interrupted_at in Hstop;
              rewrite Hsig in Hstop; apply Nat.leb_le in Hstop; lia
             |lia]]));
    pose proof (reads_after_ge t (List.length (engine_segments w config))) as Hreads;
    cbn [Py.truthy_opt Py.get];
    destruct (Py.truthy (temp_wav_name w)) eqn:Htemp;
    cbv beta iota; cbn [files events flag_reads current_segments wav_path];
    rewrite ?Hflag by lia; cbn [negb]; cbv beta iota;
    cbn [files events flag_reads current_segments wav_path];
    rewrite ?Hflag by lia;
    unfold safe_unlink; rewrite ?Htemp; simpl existsb; rewrite ?String.eqb_refl;
    cbn [andb orb]; cbv beta iota;
    cbn [files events flag_reads current_segments wav_path];
    (eexists; eexists; split; [reflexivity|]);
    cbn [is_partial speakers result_segments events current_segments];
    (split; [try reflexivity; apply Hflag; lia|]);
    (split; [apply summary_of_unlabelled, transcript_unlabelled|]);
    (split; [reflexivity|]);
    (split; [intro Heq; rewrite Heq, firstn_all; reflexivity|]);
    (split; [apply transcript_unlabelled|]);
    (split; [|reflexivity]);
    intros wav Hin; unfold conversion_events, transcription_events in Hin;
    destruct (switches_model (model_size config) (language config));
    simpl in Hin; rewrite ?in_app_iff in Hin; simpl in Hin;
    intuition discriminate.
Qed.


Lemma safe_unlink_returns p st : exists st', safe_unlink p st = (inr tt, st').
Proof.
  unfold safe_unlink. destruct p as [path|]; [|eexists; reflexivity].
  destruct (Py.truthy path && existsb (String.eqb path) (files st));
    eexists; reflexivity.
Qed.

(** A run that returns a result returns the transcript of the raw segments
    copied, as it is or as [assign_speakers] leaves it. *)
Lemma transcribe_segments config st r st' :
  transcribe strip splitlines w config st = (inr r, st') ->
  exists k,
    (k <= List.length (engine_segments w config))%nat /\
    (result_segments r = transcript strip (firstn k (engine_segments w config)) \/
     result_segments r =
     assign_speakers (transcript strip (firstn k (engine_segments w config)))
                     (Py.get (senko_merged_segments w) [])).
Proof.
  unfold transcribe.
  destruct (audio_exists w); cbn [negb]; [|discriminate].
  destruct (enable_diarization config), (stream_progress config);
    unfold run_senko_diarization; run_step;
    repeat (cbv beta iota;
            cbn [files events flag_reads current_segments wav_path
                 Py.truthy_opt negb];
            match goal with
            | |- context [convert_to_wav ?a ?b ?c ?d ?s] =>
                destruct (convert_to_wav a b c d s) as [[?e|?path] ?stb]
            | |- context [run_transcription strip w ?m ?l ?s ?s0] =>
                destruct (run_transcription_spec m l s s0) as (k & Hk & Hrun & _ & _);
                rewrite Hrun; clear Hrun
            | |- context [safe_unlink ?p ?s] =>
                let Hu := fresh "Hu" in
                destruct (safe_unlink_returns p s) as (?stu & Hu); rewrite Hu; clear Hu
            | |- context [if Py.truthy ?x then _ else _] => destruct (Py.truthy x)
            | |- context [interrupted_at w ?n] => destruct (interrupted_at w n)
            end);
    intro H; try discriminate H;
    injection H as <- _; exists k; (split; [exact Hk|]);
    cbn [result_segments]; auto.
Qed.

Lemma keeps_spec (text : string) :
  keeps text = true <-> text <> EmptyString /\ ~ In text punctuation.
Proof.
  unfold keeps. rewrite andb_true_iff, negb_true_iff. split.
  - intros [Ht Hp]. split.
    + intros ->. discriminate.
    + intro Hin.
      assert (existsb (String.eqb text) punctuation = true).
      { apply existsb_exists. exists text. split; [exact Hin|apply String.eqb_refl]. }
      congruence.
  - intros [Ht Hp]. split.
    + destruct text; [contradiction|reflexivity].
    + destruct (existsb (String.eqb text) punctuation) eqn:E; [|reflexivity].
      apply existsb_exists in E. destruct E as (x & Hx & Heq).
      apply String.eqb_eq in Heq. subst x. contradiction.
Qed.

Lemma transcript_spoken raws sg :
  In sg (transcript strip raws) -> spoken_text strip raws sg.
Proof.
  unfold transcript. intro Hin.
  apply in_map_iff in Hin. destruct Hin as (raw & <- & Hraw).
  apply filter_In in Hraw. destruct Hraw as [Hraw Hkeep].
  apply keeps_spec in Hkeep.
  exists raw. split; [exact Hraw|]. split; [reflexivity|exact Hkeep].
Qed.

Lemma firstn_In {A} : forall k (l : list A) x, In x (firstn k l) -> In x l.
Proof.
  intros k l x Hx. rewrite <- (firstn_skipn k l). apply in_or_app. left. exact Hx.
Qed.

Lemma spoken_text_frame raws a b :
  same_span_and_text a b -> spoken_text strip raws a -> spoken_text strip raws b.
Proof.
  intros (_ & _ & Ht) (raw & Hraw & Htext & Hrest).
  exists raw. split; [exact Hraw|]. split; [congruence|exact Hrest].
Qed.

Lemma Forall2_Forall_r {A} (R : A -> A -> Prop) (P : A -> Prop) :
  (forall a b, R a b -> P a -> P b) ->
  forall l l', Forall2 R l l' -> Forall P l -> Forall P l'.
Proof.
  intros HR l l' H2. induction H2 as [|a b l l' Hab _ IH]; intro Hl.
  - constructor.
  - inversion Hl; subst. constructor; [eapply HR; eassumption|apply IH; assumption].
Qed.

(** C10.  The copy loop returns normally and appends the transcript of the
    raw segments it copied: one segment for each raw segment whose stripped
    text is neither empty nor one of the seven punctuation strings, and none
    for the others.  So every segment of a transcript, and every segment of
    the result of a run, carries the stripped text of a raw segment, and
    that text is not empty and is not bare punctuation. *)
Theorem copy_loop_keeps_spoken_text :
  (forall raws st, exists k st',
      (k <= List.length raws)%nat /\
      copy_loop strip w raws st = (inr tt, st') /\
      current_segments st' = current_segments st ++ transcript strip (firstn k raws)) /\
  (forall raw raws,
      transcript strip (raw :: raws) =
      (if Py.truthy (stripped strip raw)
          && negb (existsb (String.eqb (stripped strip raw)) punctuation)
       then [to_segment raw (stripped strip raw)] else [])
      ++ transcript strip raws) /\
  (forall raws sg, In sg (transcript strip raws) -> spoken_text strip raws sg) /\
  (forall config st r st',
      transcribe strip splitlines w config st = (inr r, st') ->
      Forall (spoken_text strip (engine_segments w config)) (result_segments r)).
Proof.
  split; [|split; [|split]].
  - intros raws st.
    destruct (copy_loop_spec raws st) as (k & Hk & Hrun & _).
    exists k. eexists. split; [exact Hk|]. split; [exact Hrun|reflexivity].
  - intros raw raws. apply transcript_cons.
  - apply transcript_spoken.
  - intros config st r st' Hrun.
    destruct (transcribe_segments config st r st' Hrun) as (k & Hk & Hsegs).
    assert (Hk_spoken :
              Forall (spoken_text strip (engine_segments w config))
                     (transcript strip (firstn k (engine_segments w config)))).
    { apply Forall_forall. intros sg Hin.
      destruct (transcript_spoken _ _ Hin) as (raw & Hraw & Hrest).
      exists raw. split; [eapply firstn_In; exact Hraw|exact Hrest]. }
    destruct Hsegs as [-> | ->]; [exact Hk_spoken|].
    eapply Forall2_Forall_r; [|apply assign_speakers_frame_all|exact Hk_spoken].
    intros a b. apply spoken_text_frame.
Qed.

End RunFacts.

(** ** The pipeline on a concrete run *)

Lemma transcribe_interrupted_before_diarization_witness :
  exists r st',
    transcribe strip_blanks split_lines (example_world 0 (Some 3%nat)) example_config
               (start_state [])
    = (inr r, st') /\
    is_partial r = true /\
    speakers r = [] /\
    result_segments r
    = transcript strip_blanks
        (firstn 3 (engine_segments (example_world 0 (Some 3%nat)) example_config)) /\
    (3%nat = List.length (engine_segments (example_world 0 (Some 3%nat)) example_config) ->
     result_segments r
     = transcript strip_blanks
         (engine_segments (example_world 0 (Some 3%nat)) example_config)) /\
    Forall (fun sg => seg_speaker sg = None) (result_segments r) /\
    (forall wav, ~ In (RunSenko wav) (events st')) /\
    current_segments st' = result_segments r.
Proof.
  apply (transcribe_interrupted_before_diarization
           strip_blanks split_lines (example_world 0 (Some 3%nat)) example_config [] 3%nat).
  - reflexivity.
  - reflexivity.
  - reflexivity.
  - reflexivity.
  - vm_compute. apply le_n.
Defined.



Lemma copy_loop_keeps_spoken_text_witness :
  exists r st',
    transcribe strip_blanks split_lines (example_world 0 None) example_config
               (start_state [])
    = (inr r, st') /\
    Forall (spoken_text strip_blanks (engine_segments (example_world 0 None) example_config))
           (result_segments r).
Proof.
  eexists. eexists. split.
  - vm_compute. reflexivity.
  - eapply (proj2 (proj2 (proj2 (copy_loop_keeps_spoken_text
                                   strip_blanks split_lines (example_world 0 None))))
              example_config (start_state [])).
    vm_compute. reflexivity.
Defined.

(** ** Further properties of the aligner *)

Lemma truthy_nonempty (s : string) : Py.truthy s = true <-> s <> EmptyString.
Proof.
  destruct s; simpl; split; intro H; congruence.
Qed.

Lemma sweep_labels ordered : forall segs idx,
  Forall2 (keeps_or_gains_label ordered) segs (sweep ordered idx segs).
Proof.
  induction segs as [|sg segs IH]; intro idx; simpl.
  - constructor.
  - rewrite assign_one_eq. constructor; [|apply IH].
    rewrite probe_candidates.
    set (rest := skipn (advance (skipn idx ordered) idx (seg_start_of sg)) ordered).
    destruct (best_of_first_max (seg_start_of sg) (seg_end_of sg)
                                (candidates rest (seg_end_of sg)))
      as [[Hr _]|(pre & best & post & Hl & Hr & Hpos & _)]; rewrite Hr; simpl.
    + left. reflexivity.
    + destruct (Py.truthy (label_of best)) eqn:E; [right|left; reflexivity].
      exists best. split; [|split; [apply truthy_nonempty; exact E|split; auto]].
      apply (skipn_incl (advance (skipn idx ordered) idx (seg_start_of sg)) ordered).
      apply (candidates_incl (seg_end_of sg) rest).
      rewrite Hl. apply in_elt.
Qed.

Lemma assign_speakers_labels (segs : list Segment) (ivs : list Interval) :
  Forall2 (keeps_or_gains_label ivs) segs (assign_speakers segs ivs).
Proof.
  unfold assign_speakers. destruct ivs as [|i ivs].
  - rewrite <- (map_id segs) at 2. apply Forall2_map_same.
    intros x _. left. reflexivity.
  - eapply Forall2_impl; [|apply sweep_labels].
    intros sg sg' [H|(best & Hin & Hne & Hpos & H)]; [left; exact H|right].
    exists best. split; [|auto].
    apply sorted_by_start_In. exact Hin.
Qed.

(** X1.  [assign_speakers] never removes or empties a speaker entry: every
    segment comes back as it was or with [speaker] set to the non-empty
    label of an interval that overlaps it, so a segment that had a speaker
    still has one and no segment ends with an empty label it did not have. *)
Theorem assign_speakers_never_clears (segs : list Segment) (ivs : list Interval) :
  Forall2 (keeps_or_gains_label ivs) segs (assign_speakers segs ivs) /\
  Forall2 (fun sg sg' =>
             (seg_speaker sg <> None -> seg_speaker sg' <> None) /\
             (seg_speaker sg' = Some EmptyString -> seg_speaker sg = Some EmptyString))
          segs (assign_speakers segs ivs).
Proof.
  split; [apply assign_speakers_labels|].
  eapply Forall2_impl; [|apply assign_speakers_labels].
  intros sg sg' [->|(best & _ & Hne & _ & ->)].
  - split; auto.
  - simpl. split; [discriminate|].
    intro H. injection H as H. contradiction.
Qed.

Lemma overlap_of_empty_span s e i : e <= s -> overlap s e i = 0.
Proof.
  intro H. unfold overlap. apply Qmax_zero_l.
  pose proof (Q.le_min_l e (end_of i)).
  pose proof (Q.le_max_l s (start_of i)).
  lra.
Qed.

(** X2.  A segment whose end is not after its start -- a zero-length
    segment, or one that lacks both its [start] and its [end] entry -- is
    never given a label: it comes back as it was, whatever the intervals. *)
Theorem assign_speakers_skips_empty_spans (segs : list Segment) (ivs : list Interval) :
  Forall2 (fun sg sg' => seg_end_of sg <= seg_start_of sg -> sg' = sg)
          segs (assign_speakers segs ivs).
Proof.
  eapply Forall2_impl; [|apply assign_speakers_labels].
  intros sg sg' [->|(best & _ & _ & Hpos & _)] Hspan.
  - reflexivity.
  - rewrite (overlap_of_empty_span _ _ best Hspan) in Hpos. lra.
Qed.

(** *** The order of the intervals *)

Lemma insert_by_start_swap a b :
  ~ start_of a == start_of b ->
  forall l, insert_by_start a (insert_by_start b l)
            = insert_by_start b (insert_by_start a l).
Proof.
  intros Hab.
  assert (Hcases : start_of a < start_of b \/ start_of b < start_of a).
  { destruct (Q_dec (start_of a) (start_of b)) as [[H|H]|H]; auto. contradiction. }
  assert (Hlt : forall x y, start_of x < start_of y ->
                            Qle_bool (start_of x) (start_of y) = true /\
                            Qle_bool (start_of y) (start_of x) = false).
  { intros x y H. split.
    - apply Qle_bool_iff. lra.
    - destruct (Qle_bool (start_of y) (start_of x)) eqn:E; [|reflexivity].
      apply Qle_bool_iff in E. lra. }
  induction l as [|y l IH]; simpl.
  - destruct Hcases as [H|H]; destruct (Hlt _ _ H) as [H1 H2]; rewrite H1, H2; reflexivity.
  - destruct (Qle_bool (start_of b) (start_of y)) eqn:Eb;
      destruct (Qle_bool (start_of a) (start_of y)) eqn:Ea; simpl;
      rewrite ?Ea, ?Eb.
    + destruct Hcases as [H|H]; destruct (Hlt _ _ H) as [H1 H2];
        rewrite H1, H2; reflexivity.
    + assert (H : start_of b < start_of a).
      { apply Qle_bool_iff in Eb.
        destruct (Qlt_le_dec (start_of y) (start_of a)) as [Hy|Hy]; [lra|].
        apply Qle_bool_iff in Hy. congruence. }
      destruct (Hlt _ _ H) as [H1 H2]. rewrite H2. reflexivity.
    + assert (H : start_of a < start_of b).
      { apply Qle_bool_iff in Ea.
        destruct (Qlt_le_dec (start_of y) (start_of b)) as [Hy|Hy]; [lra|].
        apply Qle_bool_iff in Hy. congruence. }
      destruct (Hlt _ _ H) as [H1 H2]. rewrite H2. reflexivity.
    + rewrite IH. reflexivity.
Qed.

Lemma starts_identify_tail a l : starts_identify (a :: l) -> starts_identify l.
Proof.
  intros H x y Hx Hy. apply H; right; assumption.
Qed.

Lemma starts_identify_perm l l' :
  Permutation l l' -> starts_identify l -> starts_identify l'.
Proof.
  intros Hp H x y Hx Hy. apply H; eapply Permutation_in; try eassumption;
    apply Permutation_sym; exact Hp.
Qed.

Lemma sorted_by_start_perm l l' :
  Permutation l l' -> starts_identify l -> sorted_by_start l = sorted_by_start l'.
Proof.
  intro Hp. induction Hp as [|x l l' Hp IH|x y l|l l' l'' Hp1 IH1 Hp2 IH2]; intro Hid.
  - reflexivity.
  - simpl. rewrite IH; [reflexivity|]. eapply starts_identify_tail. exact Hid.
  - simpl. destruct (Qeq_dec (start_of y) (start_of x)) as [Heq|Hne].
    + assert (y = x) as ->; [|reflexivity].
      apply Hid; simpl; auto.
    + apply insert_by_start_swap. exact Hne.
  - rewrite IH1 by exact Hid. apply IH2.
    eapply starts_identify_perm; eassumption.
Qed.

(** X3.  The order in which the diarization intervals arrive does not
    matter: when intervals that start together are identical,
    [assign_speakers] gives the same result on every reordering of the
    interval list. *)
Theorem assign_speakers_any_interval_order
    (segs : list Segment) (ivs ivs' : list Interval) :
  Permutation ivs ivs' ->
  starts_identify ivs ->
  assign_speakers segs ivs = assign_speakers segs ivs'.
Proof.
  intros Hp Hid. unfold assign_speakers.
  destruct ivs as [|i ivs].
  - apply Permutation_nil in Hp. subst. reflexivity.
  - destruct ivs' as [|i' ivs'].
    + apply Permutation_sym, Permutation_nil in Hp. discriminate.
    + rewrite (sorted_by_start_perm _ _ Hp Hid). reflexivity.
Qed.

Lemma assign_speakers_any_interval_order_witness :
  assign_speakers [seg 0 5 "a"; seg 5 10 "b"] [spk 4 9 "S2"; spk 0 4 "S1"]
  = assign_speakers [seg 0 5 "a"; seg 5 10 "b"] [spk 0 4 "S1"; spk 4 9 "S2"].
Proof.
  apply assign_speakers_any_interval_order.
  - apply perm_swap.
  - intros a b [<-|[<-|[]]] [<-|[<-|[]]] H; try reflexivity;
      vm_compute in H; discriminate.
Defined.

(** ** Further properties of the time formatter *)

Lemma round_of_small (x : Q) : x <= 1 # 2 -> (Py.round x <= 0)%Z.
Proof.
  intro Hx. unfold Py.round.
  pose proof (Qfloor_le x) as Hlo.
  pose proof (Qlt_floor x) as Hhi.
  rewrite inject_Z_plus in Hhi. change (inject_Z 1) with 1 in Hhi.
  set (f := Qfloor x) in *.
  destruct (Z_lt_le_dec f 0) as [Hneg|Hnonneg].
  - destruct (Qcompare (x - inject_Z f) (1 # 2)); try destruct (Z.even f); lia.
  - assert (Hf : inject_Z 0 <= inject_Z f) by (rewrite <- Zle_Qle; exact Hnonneg).
    change (inject_Z 0) with 0 in Hf.
    destruct (Z_le_lt_eq_dec _ _ Hnonneg) as [Hpos|Hzero].
    + exfalso.
      assert (H1 : inject_Z 1 <= inject_Z f) by (rewrite <- Zle_Qle; lia).
      change (inject_Z 1) with 1 in H1. lra.
    + rewrite <- Hzero in *. change (inject_Z 0) with 0 in *.
      destruct (Qcompare_spec (x - 0) (1 # 2)) as [E|E|E]; simpl; try lia.
      lra.
Qed.

(** X4.  A duration of at most half a second -- zero and every negative
    duration among them -- is written "0:00": the total never goes below
    zero, and the tie at 0.5 rounds down to the even 0. *)
Theorem format_time_floor_at_zero (seconds : Q) :
  seconds <= 1 # 2 -> format_time seconds = "0:00"%string.
Proof.
  intro H. unfold format_time.
  replace (Z.max 0 (Py.round seconds)) with 0%Z
    by (pose proof (round_of_small seconds H); lia).
  reflexivity.
Qed.

Lemma format_time_floor_at_zero_witness :
  format_time (- (7 # 3)) = "0:00"%string.
Proof.
  apply format_time_floor_at_zero. vm_compute. discriminate.
Defined.

Lemma length_app (a b : string) :
  String.length (a ++ b) = (String.length a + String.length b)%nat.
Proof.
  induction a as [|c a IH]; simpl; [reflexivity|]. rewrite IH. reflexivity.
Qed.

Lemma str02_width_nat : forall k : nat,
  (k < 100)%nat -> String.length (Py.str02_of_Z (Z.of_nat k)) = 2%nat.
Proof.
  intros k Hk.
  do 100 (destruct k as [|k]; [reflexivity|]).
  lia.
Qed.

Lemma str02_width (n : Z) :
  (0 <= n < 100)%Z -> String.length (Py.str02_of_Z n) = 2%nat.
Proof.
  intro H. rewrite <- (Z2Nat.id n) by lia. apply str02_width_nat. lia.
Qed.

(** X5.  The seconds field of [format_time] always has two digits, and so
    has the minutes field once the hours are shown: the text is the hours,
    or else the minutes, in as many digits as they need, followed by six,
    or else three, more characters. *)
Theorem format_time_field_widths (seconds : Q) :
  let total := Z.max 0 (Py.round seconds) in
  String.length (format_time seconds) =
  if (3600 <=? total)%Z
  then (String.length (Py.str_of_Z (total / 3600)) + 6)%nat
  else (String.length (Py.str_of_Z (total / 60)) + 3)%nat.
Proof.
  intro total. unfold format_time. fold total.
  assert (Hnonneg : (0 <= total)%Z) by (unfold total; lia).
  assert (Hm : (0 <= (total mod 3600) / 60 < 100)%Z)
    by (Z.div_mod_to_equations; lia).
  assert (Hs : (0 <= total mod 60 < 100)%Z)
    by (Z.div_mod_to_equations; lia).
  destruct (3600 <=? total)%Z eqn:E.
  - apply Z.leb_le in E.
    replace (0 <? total / 3600)%Z with true
      by (symmetry; apply Z.ltb_lt; Z.div_mod_to_equations; lia).
    rewrite !length_app, (str02_width _ Hm), (str02_width _ Hs). simpl. lia.
  - apply Z.leb_gt in E.
    replace (0 <? total / 3600)%Z with false
      by (symmetry; apply Z.ltb_ge; Z.div_mod_to_equations; lia).
    replace ((total mod 3600) / 60)%Z with (total / 60)%Z
      by (rewrite Z.mod_small by lia; reflexivity).
    rewrite !length_app, (str02_width _ Hs). simpl. lia.
Qed.

(** ** The speaker summary *)

Lemma summary_add_keys k d : forall s x,
  In x (map fst (summary_add k d s)) <-> x = k \/ In x (map fst s).
Proof.
  induction s as [|[k' st] s IH]; intro x; simpl.
  - intuition.
  - destruct (String.eqb k' k) eqn:E; simpl.
    + apply String.eqb_eq in E. subst. intuition.
    + rewrite IH. intuition.
Qed.

Lemma summary_add_NoDup k d : forall s,
  NoDup (map fst s) -> NoDup (map fst (summary_add k d s)).
Proof.
  induction s as [|[k' st] s IH]; intro H; simpl.
  - constructor; [simpl; tauto|constructor].
  - inversion H as [|? ? Hnotin Hnd]; subst.
    destruct (String.eqb k' k) eqn:E; simpl.
    + constructor; assumption.
    + constructor; [|apply IH; exact Hnd].
      rewrite summary_add_keys. intros [->|Hin]; [|contradiction].
      rewrite String.eqb_refl in E. discriminate.
Qed.

Lemma summary_add_count k d label : forall s,
  count_in label (summary_add k d s)
  = (count_in label s + if String.eqb k label then 1 else 0)%nat.
Proof.
  induction s as [|[k' st] s IH]; simpl.
  - destruct (String.eqb k label); reflexivity.
  - destruct (String.eqb k' k) eqn:E; simpl.
    + apply String.eqb_eq in E. subst k'.
      destruct (String.eqb k label); lia.
    + rewrite IH. lia.
Qed.

(** The dictionary after the loop over the segments. *)
Lemma summary_fold_spec : forall segs acc,
  let summary := fold_left summary_step segs acc in
  (forall x, In x (map fst summary) <->
             In x (map fst acc) \/
             (x <> EmptyString /\ exists sg, In sg segs /\ seg_speaker sg = Some x)) /\
  (NoDup (map fst acc) -> NoDup (map fst summary)) /\
  (forall label, label <> EmptyString ->
                 count_in label summary
                 = (count_in label acc + List.length (spoken_by label segs))%nat).
Proof.
  induction segs as [|sg segs IH]; intro acc; simpl.
  - split; [|split].
    + intro x. split; [auto|]. intros [H|(_ & sg & [] & _)]. exact H.
    + auto.
    + intros. lia.
  - destruct (IH (summary_step acc sg)) as (Hkeys & Hnd & Hcount).
    unfold summary_step in Hkeys, Hnd, Hcount |- *.
    destruct (seg_speaker sg) as [speaker|] eqn:Hsp.
    + destruct (Py.truthy speaker) eqn:Ht; simpl negb in *; cbv iota in *.
      * apply truthy_nonempty in Ht.
        split; [|split].
        -- intro x. rewrite Hkeys, summary_add_keys. split.
           ++ intros [[->|H]|(Hx & sg' & Hin & Hs)]; auto.
              ** right. split; [exact Ht|]. exists sg. auto.
              ** right. split; [exact Hx|]. exists sg'. auto.
           ++ intros [H|(Hx & sg' & [<-|Hin] & Hs)]; auto.
              ** left. left. congruence.
              ** right. split; [exact Hx|]. exists sg'. auto.
        -- intro H. apply Hnd. apply summary_add_NoDup. exact H.
        -- intros label Hl. rewrite (Hcount label Hl), summary_add_count.
           destruct (String.eqb speaker label); simpl; lia.
      * assert (speaker = EmptyString) as -> by (destruct speaker; [reflexivity|discriminate]).
        split; [|split].
        -- intro x. rewrite Hkeys. split.
           ++ intros [H|(Hx & sg' & Hin & Hs)]; auto.
              right. split; [exact Hx|]. exists sg'. auto.
           ++ intros [H|(Hx & sg' & [<-|Hin] & Hs)]; auto.
              ** congruence.
              ** right. split; [exact Hx|]. exists sg'. auto.
        -- exact Hnd.
        -- intros label Hl. rewrite (Hcount label Hl).
           replace (String.eqb EmptyString label) with false; [reflexivity|].
           symmetry. apply String.eqb_neq. congruence.
    + split; [|split].
      * intro x. rewrite Hkeys. split.
        -- intros [H|(Hx & sg' & Hin & Hs)]; auto.
           right. split; [exact Hx|]. exists sg'. auto.
        -- intros [H|(Hx & sg' & [<-|Hin] & Hs)]; auto.
           ++ congruence.
           ++ right. split; [exact Hx|]. exists sg'. auto.
      * exact Hnd.
      * intros label Hl. rewrite (Hcount label Hl). reflexivity.
Qed.

Lemma insert_by_key_perm item : forall l, Permutation (item :: l) (insert_by_key item l).
Proof.
  induction l as [|x l IH]; simpl.
  - apply Permutation_refl.
  - destruct (String.leb (fst item) (fst x)).
    + apply Permutation_refl.
    + eapply perm_trans; [apply perm_swap|]. apply perm_skip. exact IH.
Qed.

Lemma sorted_items_perm : forall s, Permutation s (sorted_items s).
Proof.
  induction s as [|x s IH]; simpl.
  - constructor.
  - eapply perm_trans; [|apply insert_by_key_perm]. apply perm_skip. exact IH.
Qed.

Lemma insert_by_key_sorted item : forall l,
  Sorted label_le (map fst l) -> Sorted label_le (map fst (insert_by_key item l)).
Proof.
  induction l as [|x l IH]; intro Hs; simpl.
  - constructor; constructor.
  - destruct (String.leb (fst item) (fst x)) eqn:E; simpl.
    + constructor; [exact Hs|]. constructor. exact E.
    + inversion Hs as [|? ? Hl Hhd]; subst.
      constructor; [apply IH; exact Hl|].
      assert (Hxi : label_le (fst x) (fst item)).
      { destruct (String.leb_total (fst item) (fst x)) as [H|H]; [congruence|exact H]. }
      destruct l as [|y l]; simpl.
      * constructor. exact Hxi.
      * destruct (String.leb (fst item) (fst y)); simpl; constructor.
        -- exact Hxi.
        -- inversion Hhd; subst. assumption.
Qed.

Lemma sorted_items_sorted : forall s, Sorted label_le (map fst (sorted_items s)).
Proof.
  induction s as [|x s IH]; simpl.
  - constructor.
  - apply insert_by_key_sorted. exact IH.
Qed.

Lemma count_in_unique : forall s k stats,
  NoDup (map fst s) -> In (k, stats) s -> count_in k s = segments stats.
Proof.
  induction s as [|[k' st] s IH]; intros k stats Hnd Hin; simpl.
  - contradiction.
  - inversion Hnd as [|? ? Hnotin Hnd']; subst.
    destruct Hin as [Heq|Hin].
    + injection Heq as -> ->. rewrite String.eqb_refl.
      assert (Hzero : forall l, ~ In k (map fst l) -> count_in k l = 0%nat).
      { induction l as [|[k2 st2] l IHl]; intro Hn; simpl; [reflexivity|].
        simpl in Hn.
        replace (String.eqb k2 k) with false
          by (symmetry; apply String.eqb_neq; intro; subst; tauto).
        apply IHl. tauto. }
      rewrite (Hzero s Hnotin). lia.
    + replace (String.eqb k' k) with false.
      * simpl. apply IH; assumption.
      * symmetry. apply String.eqb_neq. intro. subst.
        apply Hnotin. apply in_map_iff. exists (k, stats). auto.
Qed.

Lemma build_speaker_summary_ids segs :
  map id (build_speaker_summary segs)
  = map fst (sorted_items (fold_left summary_step segs [])).
Proof.
  unfold build_speaker_summary. rewrite map_map. reflexivity.
Qed.

(** X6.  The summary has an entry for a label exactly when the label is not
    empty and some segment carries it: segments without a speaker, or with
    an empty one, add nothing. *)
Theorem build_speaker_summary_speakers (segs : list Segment) (label : string) :
  In label (map id (build_speaker_summary segs)) <->
  label <> EmptyString /\ exists sg, In sg segs /\ seg_speaker sg = Some label.
Proof.
  rewrite build_speaker_summary_ids.
  destruct (summary_fold_spec segs []) as (Hkeys & _ & _).
  split.
  - intro H.
    assert (Hin : In label (map fst (fold_left summary_step segs []))).
    { eapply Permutation_in; [|exact H].
      apply Permutation_map, Permutation_sym, sorted_items_perm. }
    apply Hkeys in Hin. destruct Hin as [[]|Hin]. exact Hin.
  - intro H.
    eapply Permutation_in; [apply Permutation_map, sorted_items_perm|].
    apply Hkeys. right. exact H.
Qed.

(** X7.  The entries of the summary come in ascending order of their labels
    and no label has two entries. *)
Theorem build_speaker_summary_sorted (segs : list Segment) :
  Sorted label_le (map id (build_speaker_summary segs)) /\
  NoDup (map id (build_speaker_summary segs)).
Proof.
  rewrite build_speaker_summary_ids. split.
  - apply sorted_items_sorted.
  - destruct (summary_fold_spec segs []) as (_ & Hnd & _).
    eapply Permutation_NoDup; [apply Permutation_map, sorted_items_perm|].
    apply Hnd. constructor.
Qed.

(** X8.  Every entry of the summary counts the segments that carry its
    label, and there is at least one. *)
Theorem build_speaker_summary_counts (segs : list Segment) (entry : SpeakerSummary) :
  In entry (build_speaker_summary segs) ->
  segment_count entry = List.length (spoken_by (id entry) segs) /\
  (1 <= segment_count entry)%nat.
Proof.
  unfold build_speaker_summary. intro H.
  apply in_map_iff in H. destruct H as ([k stats] & <- & Hin). simpl.
  destruct (summary_fold_spec segs []) as (Hkeys & Hnd & Hcount).
  assert (Hin' : In (k, stats) (fold_left summary_step segs [])).
  { eapply Permutation_in; [apply Permutation_sym, sorted_items_perm|exact Hin]. }
  assert (Hk : In k (map fst (fold_left summary_step segs []))).
  { apply in_map_iff. exists (k, stats). auto. }
  apply Hkeys in Hk. destruct Hk as [[]|(Hne & sg & Hsg & Hsp)].
  rewrite <- (count_in_unique _ k stats (Hnd (NoDup_nil _)) Hin').
  rewrite (Hcount k Hne). simpl. split; [reflexivity|].
  assert (Hmem : In sg (spoken_by k segs)).
  { unfold spoken_by. apply filter_In. split; [exact Hsg|].
    rewrite Hsp. apply String.eqb_refl. }
  destruct (spoken_by k segs); [contradiction|simpl; lia].
Qed.

Lemma build_speaker_summary_counts_witness :
  segment_count (mkSpeakerSummary "S1" 2 "0:08")
  = List.length (spoken_by "S1" [set_speaker (seg 0 5 "a") "S1";
                                 set_speaker (seg 5 10 "b") "S2";
                                 set_speaker (seg 10 13 "c") "S1"]) /\
  (1 <= segment_count (mkSpeakerSummary "S1" 2 "0:08"))%nat.
Proof.
  apply (build_speaker_summary_counts
           [set_speaker (seg 0 5 "a") "S1";
            set_speaker (seg 5 10 "b") "S2";
            set_speaker (seg 10 13 "c") "S1"]
           (mkSpeakerSummary "S1" 2 "0:08")).
  vm_compute. left. reflexivity.
Defined.

(** ** Further properties of the pipeline *)

Ltac exec_step :=
  cbv [bind when progress emit ret raise set_current_segments get_current_segments
       set_wav_path get_wav_path create_file read_interrupted submit future_result
       try_finally andb last_line];
  cbn [files events flag_reads current_segments wav_path].

Lemma without_absent (path : string) : forall fs,
  existsb (String.eqb path) fs = false -> without path fs = fs.
Proof.
  induction fs as [|f fs IH]; simpl; intro H.
  - reflexivity.
  - apply orb_false_iff in H. destruct H as [Hf Hfs].
    rewrite Hf. simpl. rewrite IH by exact Hfs. reflexivity.
Qed.


Lemma safe_unlink_spec (p : option string) (st : State) :
  exists st',
    safe_unlink p st = (inr tt, st') /\
    files st' = match p with
                | Some path => if Py.truthy path then without path (files st) else files st
                | None => files st
                end /\
    flag_reads st' = flag_reads st /\
    current_segments st' = current_segments st /\
    wav_path st' = wav_path st /\
    (events st' = events st \/
     exists path, p = Some path /\ events st' = events st ++ [Unlink path]).
Proof.
  unfold safe_unlink. destruct p as [path|].
  - destruct (Py.truthy path) eqn:Ht; simpl andb.
    + destruct (existsb (String.eqb path) (files st)) eqn:Hex.
      * eexists. split; [reflexivity|]. simpl. fold (without path (files st)).
        repeat split; try reflexivity. right. exists path. auto.
      * exists st. split; [reflexivity|].
        rewrite (without_absent _ _ Hex). repeat split; auto.
    + exists st. repeat split; auto.
  - exists st. repeat split; auto.
Qed.


Section RunMore.

Variable strip : string -> string.
Variable splitlines : string -> list string.
Variable w : World.

(** The converter, whatever its exit status. *)
Lemma convert_to_wav_cases stream st :
  convert_to_wav strip splitlines w stream st =
  (if (ffmpeg_returncode w =? 0)%Z then inr (temp_wav_name w)
   else inl (conversion_error strip splitlines (ffmpeg_stderr w)),
   mkState (files_after_conversion w (files st))
           (events st ++ converter_trace w stream)
           (flag_reads st) (current_segments st) (wav_path st)).
Proof.
  unfold convert_to_wav, files_after_conversion, converter_trace, conversion_events,
    conversion_error, diagnostic_line, without.
  destruct (ffmpeg_returncode w =? 0)%Z; simpl negb.
  - destruct stream; exec_step; rewrite <- ?app_assoc; reflexivity.
  - destruct stream; exec_step; unfold safe_unlink;
      cbn [files events flag_reads current_segments wav_path];
      simpl existsb; rewrite String.eqb_refl;
      destruct (Py.truthy (temp_wav_name w)); simpl andb; cbv beta iota;
      cbn [files events flag_reads current_segments wav_path];
      rewrite ?filter_out_head;
      (destruct (Py.truthy (ffmpeg_stderr w));
       [destruct (splitlines (strip (ffmpeg_stderr w))) as [|l lines]|]);
      simpl; rewrite <- ?app_assoc; simpl; rewrite ?app_nil_r; reflexivity.
Qed.

Ltac exec_transcribe :=
  repeat (cbv beta iota;
          cbn [files events flag_reads current_segments wav_path Py.truthy_opt negb];
          match goal with
          | |- context [convert_to_wav ?sp ?sl ?ww ?d ?s] =>
              rewrite (convert_to_wav_cases d s)
          | |- context [run_transcription ?sp ?ww ?m ?l ?s ?s0] =>
              let k := fresh "k" in
              let Hk := fresh "Hk" in
              let Hrun := fresh "Hrun" in
              let Hb := fresh "Hbefore" in
              let Hs := fresh "Hstop" in
              destruct (run_transcription_spec sp ww m l s s0) as (k & Hk & Hrun & Hb & Hs);
              rewrite Hrun; clear Hrun
          | |- context [if (ffmpeg_returncode w =? 0)%Z then _ else _] =>
              let Hrc := fresh "Hrc" in
              destruct (ffmpeg_returncode w =? 0)%Z eqn:Hrc
          | |- context [safe_unlink ?p ?s] =>
              let stu := fresh "stu" in
              let Hu := fresh "Hu" in
              let Hfiles := fresh "Hfiles" in
              let Hcs := fresh "Hcs" in
              let Hev := fresh "Hevents" in
              destruct (safe_unlink_spec p s) as (stu & Hu & Hfiles & _ & Hcs & _ & Hev);
              rewrite Hu; clear Hu;
              cbn [files events flag_reads current_segments wav_path] in Hfiles, Hcs, Hev
          | |- context [if Py.truthy ?x then _ else _] =>
              let Ht := fresh "Htruthy" in destruct (Py.truthy x) eqn:Ht
          | |- context [interrupted_at w ?n] =>
              let Hi := fresh "Hflag" in destruct (interrupted_at w n) eqn:Hi
          end).

(** What every returned result is made of. *)
Lemma transcribe_result_fields config st r st' :
  transcribe strip splitlines w config st = (inr r, st') ->
  success r = true /\
  has_diarization r = enable_diarization config /\
  speakers r = build_speaker_summary (result_segments r) /\
  metadata_speakers r = map id (speakers r) /\
  model r = effective_model_of config /\
  result_language r
  = detect_language (call_whisper w (effective_model_of config) (language config))
                    (language config) /\
  result_duration r = Py.round2 (probed_duration w) /\
  current_segments st' = result_segments r.
Proof.
  unfold transcribe.
  destruct (audio_exists w); cbn [negb]; [|discriminate].
  destruct (enable_diarization config), (stream_progress config);
    unfold run_senko_diarization; exec_step; exec_transcribe;
    intro H; try discriminate H;
    injection H as <- <-;
    cbn [success has_diarization speakers metadata_speakers model result_language
         result_duration result_segments];
    repeat split; try reflexivity; try exact Hcs.
Qed.




(** X12.  With diarization disabled nothing is converted and nothing is
    diarized: the run returns a result whose segments are the transcript of
    the raw segments copied, with no speaker and no speaker summary; the
    trace holds the events of the transcription alone, no file is created
    or removed, and [wav_path] stays unset. *)
Theorem transcribe_without_diarization config st :
  audio_exists w = true ->
  enable_diarization config = false ->
  exists k r st',
    (k <= List.length (engine_segments w config))%nat /\
    transcribe strip splitlines w config st = (inr r, st') /\
    has_diarization r = false /\
    speakers r = [] /\
    result_segments r = transcript strip (firstn k (engine_segments w config)) /\
    is_partial r
    = interrupted_at w (flag_reads st
                        + reads_after k (List.length (engine_segments w config))) /\
    files st' = files st /\
    wav_path st' = None /\
    events st'
    = events st
      ++ (if stream_progress config then [Progress "starting" 0] else [])
      ++ transcription_events (switches_model (model_size config) (language config))
                              (stream_progress config) (effective_model_of config)
      ++ (if stream_progress config then [Progress "complete" 100] else []).
Proof.
  intros Ha Hd. unfold transcribe. rewrite Ha, Hd. cbn [negb].
  destruct (stream_progress config); exec_step;
    match goal with
    | |- context [run_transcription strip w ?m ?l ?s ?s0] =>
        destruct (run_transcription_spec strip w m l s s0) as (k & Hk & Hrun & _ & _);
        rewrite Hrun
    end;
    fold (effective_model_of config) in *; fold (engine_segments w config) in *;
    cbn [files events flag_reads current_segments wav_path Py.truthy_opt] in *;
    unfold safe_unlink; cbv beta iota;
    exists k; eexists; eexists;
    (split; [exact Hk|]); (split; [reflexivity|]);
    cbn [has_diarization speakers result_segments is_partial files wav_path events];
    (split; [reflexivity|]);
    (split; [apply summary_of_unlabelled, transcript_unlabelled|]);
    repeat split; rewrite <- ?app_assoc; simpl; rewrite ?app_nil_r; reflexivity.
Qed.

(** X13.  A run that no interrupt reaches, with diarization enabled and the
    conversion done, copies every raw segment, runs the diarization engine
    on the converted file and returns the whole transcript as
    [assign_speakers] labels it with the engine's intervals; the result is
    not partial and the temporary file is gone. *)
Theorem transcribe_uninterrupted config st :
  audio_exists w = true ->
  enable_diarization config = true ->
  ffmpeg_returncode w = 0%Z ->
  Py.truthy (temp_wav_name w) = true ->
  sigint_before_read w = None ->
  exists r st',
    transcribe strip splitlines w config st = (inr r, st') /\
    is_partial r = false /\
    result_segments r
    = assign_speakers (transcript strip (engine_segments w config))
                      (Py.get (senko_merged_segments w) []) /\
    In (RunSenko (temp_wav_name w)) (events st') /\
    files st' = without (temp_wav_name w) (files st).
Proof.
  intros Ha Hd Hrc Htemp Hsig.
  assert (Hnever : forall n, interrupted_at w n = false)
    by (intro n; unfold interrupted_at; rewrite Hsig; reflexivity).
  unfold transcribe. rewrite Ha, Hd. cbn [negb].
  destruct (stream_progress config); exec_step;
    rewrite convert_to_wav_ok by exact Hrc;
    match goal with
    | |- context [run_transcription strip w ?m ?l ?s ?s0] =>
        destruct (run_transcription_spec strip w m l s s0) as (k & Hk & Hrun & _ & Hstop);
        rewrite Hrun
    end;
    fold (effective_model_of config) in *; fold (engine_segments w config) in *;
    (assert (k = List.length (engine_segments w config)) as ->
        by (destruct (Nat.lt_ge_cases k (List.length (engine_segments w config)))
              as [Hlt|Hge];
            [specialize (Hstop Hlt); rewrite Hnever in Hstop; discriminate|lia]));
    rewrite firstn_all;
    cbn [files events flag_reads current_segments wav_path Py.truthy_opt Py.get] in *;
    rewrite Htemp; cbv beta iota;
    cbn [files events flag_reads current_segments wav_path];
    rewrite !Hnever; cbn [negb]; cbv beta iota;
    unfold run_senko_diarization; exec_step;
    unfold safe_unlink; rewrite Htemp; simpl existsb; rewrite String.eqb_refl;
    cbn [andb orb]; cbv beta iota;
    cbn [files events flag_reads current_segments wav_path];
    (eexists; eexists; split; [reflexivity|]);
    cbn [is_partial result_segments events files];
    (split; [apply Hnever|]); (split; [reflexivity|]);
    (split; [rewrite ?in_app_iff; simpl; tauto|]);
    unfold without; rewrite filter_out_head; reflexivity.
Qed.

(** X14.  An interrupt that arrives after the gate has been passed, and
    before the result is put together, does not undo the diarization: the
    result carries the labels of [assign_speakers] over the whole
    transcript and is marked partial all the same. *)
Theorem transcribe_interrupted_after_gate config fs :
  audio_exists w = true ->
  enable_diarization config = true ->
  ffmpeg_returncode w = 0%Z ->
  Py.truthy (temp_wav_name w) = true ->
  sigint_before_read w = Some (S (List.length (engine_segments w config))) ->
  exists r st',
    transcribe strip splitlines w config (start_state fs) = (inr r, st') /\
    is_partial r = true /\
    result_segments r
    = assign_speakers (transcript strip (engine_segments w config))
                      (Py.get (senko_merged_segments w) []) /\
    In (RunSenko (temp_wav_name w)) (events st').
Proof.
  intros Ha Hd Hrc Htemp Hsig.
  unfold transcribe. rewrite Ha, Hd. cbn [negb]. unfold start_state.
  destruct (stream_progress config); exec_step;
    rewrite convert_to_wav_ok by exact Hrc;
    match goal with
    | |- context [run_transcription strip w ?m ?l ?s ?s0] =>
        destruct (run_transcription_spec strip w m l s s0) as (k & Hk & Hrun & _ & Hstop);
        rewrite Hrun
    end;
    fold (effective_model_of config) in *; fold (engine_segments w config) in *;
    cbn [files events flag_reads current_segments wav_path plus] in *;
    (assert (k = List.length (engine_segments w config)) as ->
        by (destruct (Nat.lt_ge_cases k (List.length (engine_segments w config)))
              as [Hlt|Hge];
            [specialize (Hstop Hlt); unfold interrupted_at in Hstop;
             rewrite Hsig in Hstop; apply Nat.leb_le in Hstop; lia|lia]));
    rewrite firstn_all;
    (assert (Hgate : interrupted_at w (reads_after (List.length (engine_segments w config))
                                                   (List.length (engine_segments w config)))
                     = false)
        by (unfold interrupted_at, reads_after; rewrite Hsig, Nat.ltb_irrefl;
            apply Nat.leb_gt; lia));
    (assert (Hlate : interrupted_at w (S (reads_after (List.length (engine_segments w config))
                                                      (List.length (engine_segments w config))))
                     = true)
        by (unfold interrupted_at, reads_after; rewrite Hsig, Nat.ltb_irrefl;
            apply Nat.leb_le; lia));
    cbn [Py.truthy_opt Py.get];
    rewrite Htemp; cbv beta iota;
    cbn [files events flag_reads current_segments wav_path];
    rewrite Hgate; cbn [negb]; cbv beta iota;
    unfold run_senko_diarization; exec_step;
    rewrite ?Hlate;
    unfold safe_unlink; rewrite Htemp; simpl existsb; rewrite String.eqb_refl;
    cbn [andb orb]; cbv beta iota;
    cbn [files events flag_reads current_segments wav_path];
    (eexists; eexists; split; [reflexivity|]);
    cbn [is_partial result_segments events files];
    (split; [try reflexivity; exact Hlate|]); (split; [reflexivity|]);
    rewrite ?in_app_iff; simpl; tauto.
Qed.

Lemma summary_ids_occur segs label :
  In label (map id (build_speaker_summary segs)) ->
  label <> EmptyString /\ exists sg, In sg segs /\ seg_speaker sg = Some label.
Proof.
  rewrite build_speaker_summary_ids. intro H.
  destruct (summary_fold_spec segs []) as (Hkeys & _ & _).
  assert (Hin : In label (map fst (fold_left summary_step segs []))).
  { eapply Permutation_in; [|exact H].
    apply Permutation_map, Permutation_sym, sorted_items_perm. }
  apply Hkeys in Hin. destruct Hin as [[]|Hin]. exact Hin.
Qed.

Lemma Forall2_In_r {A B} (R : A -> B -> Prop) : forall l l' b,
  Forall2 R l l' -> In b l' -> exists a, In a l /\ R a b.
Proof.
  intros l l' b H. induction H as [|x y l l' Hxy _ IH]; intro Hin.
  - contradiction.
  - destruct Hin as [<-|Hin].
    + exists x. split; [left; reflexivity|exact Hxy].
    + destruct (IH Hin) as (a & Ha & HR). exists a. split; [right; exact Ha|exact HR].
Qed.

(** X15.  Every speaker listed in a result comes from the diarization: its
    label is not empty, it is the label of one of the engine's intervals
    (the default label for an interval without one), and some segment of the
    result carries it. *)
Theorem transcribe_speakers_from_intervals config st r st' :
  transcribe strip splitlines w config st = (inr r, st') ->
  forall label,
    In label (map id (speakers r)) ->
    label <> EmptyString /\
    (exists speaker_seg,
        In speaker_seg (Py.get (senko_merged_segments w) []) /\
        label_of speaker_seg = label) /\
    (exists sg, In sg (result_segments r) /\ seg_speaker sg = Some label).
Proof.
  intros Hrun label Hin.
  destruct (transcribe_result_fields config st r st' Hrun) as (_ & _ & Hsp & _).
  rewrite Hsp in Hin.
  destruct (summary_ids_occur _ _ Hin) as (Hne & sg & Hsg & Hlabel).
  split; [exact Hne|]. split; [|exists sg; auto].
  destruct (transcribe_segments strip splitlines w config st r st' Hrun)
    as (k & _ & [Hsegs|Hsegs]); rewrite Hsegs in Hsg.
  - exfalso.
    pose proof (transcript_unlabelled strip (firstn k (engine_segments w config))) as Hun.
    rewrite Forall_forall in Hun. rewrite (Hun sg Hsg) in Hlabel. discriminate.
  - destruct (Forall2_In_r _ _ _ sg (assign_speakers_labels _ _) Hsg)
      as (sg0 & Hsg0 & [->|(best & Hbest & _ & _ & ->)]).
    + exfalso.
      pose proof (transcript_unlabelled strip (firstn k (engine_segments w config))) as Hun.
      rewrite Forall_forall in Hun. rewrite (Hun sg0 Hsg0) in Hlabel. discriminate.
    + exists best. split; [exact Hbest|].
      simpl in Hlabel. congruence.
Qed.



(** X17.  When the diarization engine's answer has no [merged_segments]
    entry, or an empty one, the run still returns its result: the segments
    are left without speakers and the speaker list is empty. *)
Theorem transcribe_without_intervals config st r st' :
  Py.get (senko_merged_segments w) [] = [] ->
  transcribe strip splitlines w config st = (inr r, st') ->
  speakers r = [] /\
  Forall (fun sg => seg_speaker sg = None) (result_segments r).
Proof.
  intros Hnone Hrun.
  destruct (transcribe_result_fields config st r st' Hrun) as (_ & _ & Hsp & _).
  assert (Hun : Forall (fun sg => seg_speaker sg = None) (result_segments r)).
  { destruct (transcribe_segments strip splitlines w config st r st' Hrun)
      as (k & _ & [-> | ->]); [|rewrite Hnone]; apply transcript_unlabelled. }
  split; [|exact Hun].
  rewrite Hsp. apply summary_of_unlabelled. exact Hun.
Qed.

Lemma detect_language_nonempty raw_result lang :
  detect_language raw_result lang <> EmptyString.
Proof.
  unfold detect_language.
  destruct (raw_language raw_result) as [l|]; simpl.
  - destruct (Py.truthy l) eqn:E; [apply truthy_nonempty; exact E|].
    destruct lang as [l'|]; simpl; [|discriminate].
    destruct (Py.truthy l') eqn:E'; [apply truthy_nonempty; exact E'|discriminate].
  - destruct lang as [l'|]; simpl; [|discriminate].
    destruct (Py.truthy l') eqn:E'; [apply truthy_nonempty; exact E'|discriminate].
Qed.

(** X18.  The result names the model that transcribed and a language that
    is never empty.  When a language other than English is asked for, the
    model is never "distil-large-v3": the run switches to "large-v3".  With
    no language, or English, the model is the one configured. *)
Theorem transcribe_model_and_language config st r st' :
  transcribe strip splitlines w config st = (inr r, st') ->
  result_language r <> EmptyString /\
  (forall lang, language config = Some lang -> lang <> EmptyString ->
                lang <> "en"%string -> model r <> "distil-large-v3"%string) /\
  (language config = None \/ language config = Some EmptyString \/
   language config = Some "en"%string -> model r = model_size config).
Proof.
  intro Hrun.
  destruct (transcribe_result_fields config st r st' Hrun)
    as (_ & _ & _ & _ & Hmodel & Hlang & _).
  rewrite Hmodel, Hlang. unfold effective_model_of, switches_model.
  split; [apply detect_language_nonempty|]. split.
  - intros lang Hl Hne Hen. rewrite Hl. simpl.
    apply truthy_nonempty in Hne. rewrite Hne.
    apply String.eqb_neq in Hen. rewrite Hen. simpl.
    destruct (String.eqb (model_size config) "distil-large-v3") eqn:E.
    + discriminate.
    + apply String.eqb_neq. exact E.
  - intros [->|[->| ->]]; reflexivity.
Qed.

(** X19.  The diarization engine is run only on the file that a successful
    conversion has written: if the trace of a run from a fresh process shows
    the engine running, then diarization is enabled, the converter exited
    with status 0, the engine ran on the temporary waveform file, the
    transcription engine has run, and the run returns a result. *)
Theorem transcribe_diarizes_converted_file config fs out st' wav :
  transcribe strip splitlines w config (start_state fs) = (out, st') ->
  In (RunSenko wav) (events st') ->
  wav = temp_wav_name w /\
  enable_diarization config = true /\
  ffmpeg_returncode w = 0%Z /\
  In (RunFfmpeg wav) (events st') /\
  In (RunWhisper (effective_model_of config)) (events st') /\
  exists r, out = inr r.
Proof.
  unfold transcribe, start_state.
  destruct (audio_exists w); cbn [negb];
    [|intro H; injection H as _ <-; simpl; contradiction].
  destruct (enable_diarization config), (stream_progress config);
    unfold run_senko_diarization; exec_step; exec_transcribe;
    fold (effective_model_of config) in *;
    unfold converter_trace, conversion_events, transcription_events in *;
    rewrite ?Hrc in *;
    intro H; injection H as <- <-;
    (destruct Hevents as [Hev|(path & _ & Hev)]; rewrite Hev; clear Hev);
    destruct (switches_model (model_size config) (language config));
    try destruct (Py.truthy (temp_wav_name w));
    intro Hin; rewrite ?in_app_iff in *; simpl in Hin; cbn [Py.get] in *;
    try (exfalso; intuition discriminate);
    (assert (wav = temp_wav_name w) as -> by (clear - Hin; intuition congruence));
    (split; [reflexivity|]); (split; [reflexivity|]);
    (split; [apply Z.eqb_eq; reflexivity || assumption|]);
    simpl; rewrite ?in_app_iff; simpl;
    (split; [tauto|]); (split; [tauto|]); eexists; reflexivity.
Qed.

End RunMore.

(** ** The pipeline extras on concrete runs *)


Lemma transcribe_without_diarization_witness :
  exists k r st',
    (k <= List.length (engine_segments silent_world plain_config))%nat /\
    transcribe strip_blanks split_lines silent_world plain_config (start_state [])
    = (inr r, st') /\
    has_diarization r = false /\
    speakers r = [] /\
    result_segments r
    = transcript strip_blanks (firstn k (engine_segments silent_world plain_config)) /\
    is_partial r
    = interrupted_at silent_world
        (flag_reads (start_state [])
         + reads_after k (List.length (engine_segments silent_world plain_config))) /\
    files st' = files (start_state []) /\
    wav_path st' = None /\
    events st'
    = events (start_state [])
      ++ (if stream_progress plain_config then [Progress "starting" 0] else [])
      ++ transcription_events
           (switches_model (model_size plain_config) (language plain_config))
           (stream_progress plain_config) (effective_model_of plain_config)
      ++ (if stream_progress plain_config then [Progress "complete" 100] else []).
Proof.
  apply (transcribe_without_diarization
           strip_blanks split_lines silent_world plain_config (start_state []));
    reflexivity.
Defined.

Lemma transcribe_uninterrupted_witness :
  exists r st',
    transcribe strip_blanks split_lines (example_world 0 None) example_config
               (start_state [])
    = (inr r, st') /\
    is_partial r = false /\
    result_segments r
    = assign_speakers
        (transcript strip_blanks (engine_segments (example_world 0 None) example_config))
        (Py.get (senko_merged_segments (example_world 0 None)) []) /\
    In (RunSenko (temp_wav_name (example_world 0 None))) (events st') /\
    files st' = without (temp_wav_name (example_world 0 None)) (files (start_state [])).
Proof.
  apply (transcribe_uninterrupted
           strip_blanks split_lines (example_world 0 None) example_config (start_state []));
    reflexivity.
Defined.

Lemma transcribe_interrupted_after_gate_witness :
  exists r st',
    transcribe strip_blanks split_lines (example_world 0 (Some 4%nat)) example_config
               (start_state [])
    = (inr r, st') /\
    is_partial r = true /\
    result_segments r
    = assign_speakers
        (transcript strip_blanks
           (engine_segments (example_world 0 (Some 4%nat)) example_config))
        (Py.get (senko_merged_segments (example_world 0 (Some 4%nat))) []) /\
    In (RunSenko (temp_wav_name (example_world 0 (Some 4%nat)))) (events st').
Proof.
  apply (transcribe_interrupted_after_gate
           strip_blanks split_lines (example_world 0 (Some 4%nat)) example_config []);
    reflexivity.
Defined.

Lemma transcribe_speakers_from_intervals_witness :
  exists r st',
    transcribe strip_blanks split_lines (example_world 0 None) example_config
               (start_state [])
    = (inr r, st') /\
    forall label,
      In label (map id (speakers r)) ->
      label <> EmptyString /\
      (exists speaker_seg,
          In speaker_seg (Py.get (senko_merged_segments (example_world 0 None)) []) /\
          label_of speaker_seg = label) /\
      (exists sg, In sg (result_segments r) /\ seg_speaker sg = Some label).
Proof.
  eexists. eexists. split.
  - vm_compute. reflexivity.
  - eapply (transcribe_speakers_from_intervals
              strip_blanks split_lines (example_world 0 None) example_config
              (start_state [])).
    vm_compute. reflexivity.
Defined.


Lemma transcribe_without_intervals_witness :
  exists r st',
    transcribe strip_blanks split_lines silent_world example_config (start_state [])
    = (inr r, st') /\
    speakers r = [] /\
    Forall (fun sg => seg_speaker sg = None) (result_segments r).
Proof.
  eexists. eexists. split.
  - vm_compute. reflexivity.
  - eapply (transcribe_without_intervals
              strip_blanks split_lines silent_world example_config (start_state [])).
    + reflexivity.
    + vm_compute. reflexivity.
Defined.

Lemma transcribe_model_and_language_witness :
  exists r st',
    transcribe strip_blanks split_lines silent_world plain_config (start_state [])
    = (inr r, st') /\
    result_language r <> EmptyString /\
    (forall lang, language plain_config = Some lang -> lang <> EmptyString ->
                  lang <> "en"%string -> model r <> "distil-large-v3"%string) /\
    (language plain_config = None \/ language plain_config = Some EmptyString \/
     language plain_config = Some "en"%string -> model r = model_size plain_config).
Proof.
  eexists. eexists. split.
  - vm_compute. reflexivity.
  - eapply (transcribe_model_and_language
              strip_blanks split_lines silent_world plain_config (start_state [])).
    vm_compute. reflexivity.
Defined.

Lemma transcribe_diarizes_converted_file_witness :
  exists out st',
    transcribe strip_blanks split_lines (example_world 0 None) example_config
               (start_state [])
    = (out, st') /\
    "/tmp/tmpk3v1.wav"%string = temp_wav_name (example_world 0 None) /\
    enable_diarization example_config = true /\
    ffmpeg_returncode (example_world 0 None) = 0%Z /\
    In (RunFfmpeg "/tmp/tmpk3v1.wav") (events st') /\
    In (RunWhisper (effective_model_of example_config)) (events st') /\
    exists r, out = inr r.
Proof.
  eexists. eexists. split.
  - vm_compute. reflexivity.
  - eapply (transcribe_diarizes_converted_file
              strip_blanks split_lines (example_world 0 None) example_config []).
    + vm_compute. reflexivity.
    + simpl. do 9 right. left. reflexivity.
Defined.

(** ** The signal handler *)

Lemma deliver_after_exit : forall n p code,
  exit_status p = Some code -> deliver n p = p.
Proof.
  destruct n as [|n]; intros p code H; simpl.
  - reflexivity.
  - rewrite H. reflexivity.
Qed.

(** X20.  However many signals arrive in a fresh process, the flag is set by
    the first and stays set, the interrupt is reported once, and the
    process ends with status 1 exactly when a second signal arrives.  The
    handler never clears the flag. *)
Theorem signals_interrupt_once (n : nat) :
  interrupted (deliver (S n) fresh_process) = true /\
  written (deliver (S n) fresh_process) = [Progress "interrupt" 0] /\
  exit_status (deliver (S n) fresh_process)
  = (if (n =? 0)%nat then None else Some 1%Z) /\
  (forall p, interrupted p = true -> interrupted (signal_handler p) = true).
Proof.
  split; [|split; [|split]].
  - destruct n as [|n]; [reflexivity|].
    simpl. erewrite deliver_after_exit; reflexivity.
  - destruct n as [|n]; [reflexivity|].
    simpl. erewrite deliver_after_exit; reflexivity.
  - destruct n as [|n]; [reflexivity|].
    simpl. erewrite deliver_after_exit; reflexivity.
  - intros p H. unfold signal_handler. rewrite H. reflexivity.
Qed.

(** ** The reports *)

Lemma skipn_past {A} (l r : list A) :
  skipn (List.length (l ++ r) - List.length r) (l ++ r) = r.
Proof.
  rewrite List.length_app.
  replace (List.length l + List.length r - List.length r)%nat with (List.length l) by lia.
  induction l as [|a l IH]; simpl; [reflexivity|exact IH].
Qed.

Lemma flat_map_length_3 : forall segs,
  List.length (flat_map markdown_segment_lines segs) = (3 * List.length segs)%nat.
Proof.
  induction segs as [|sg segs IH]; simpl; [reflexivity|].
  rewrite IH. lia.
Qed.

(** X21.  The text report has nine fixed lines, a block of one line per
    speaker between a heading and a blank line when there are speakers, and
    then one line per segment: the segment lines close the report, in the
    order of the segments, none left out and none added.  A segment without
    a speaker entry is shown as "Unknown". *)
Theorem txt_report_structure (segs : list Segment) (speakers : list SpeakerSummary)
    (metadata : Metadata) :
  let lines := txt_lines segs speakers metadata in
  List.length lines
  = (9 + (match speakers with [] => 0 | _ :: _ => List.length speakers + 2 end)
     + List.length segs)%nat /\
  skipn (List.length lines - List.length segs) lines = map txt_segment_line segs /\
  (forall sg,
      seg_speaker sg = None ->
      txt_segment_line sg
      = ("[Unknown] (" ++ format_time (seg_start_of sg) ++ "-"
         ++ format_time (seg_end_of sg) ++ ") " ++ Py.get (seg_text sg) EmptyString)%string).
Proof.
  intro lines. split; [|split].
  - unfold lines, txt_lines.
    destruct speakers as [|sp speakers];
      repeat rewrite ?List.length_app, ?length_map; simpl;
      repeat rewrite ?List.length_app, ?length_map; simpl; lia.
  - unfold lines, txt_lines.
    rewrite <- (length_map txt_segment_line segs).
    rewrite !app_assoc. apply skipn_past.
  - intros sg H. unfold txt_segment_line. rewrite H. reflexivity.
Qed.

(** X22.  The markdown report has nine fixed lines, the same block for the
    speakers, and then three lines per segment -- speaker and times, the
    quoted text, a blank line -- which close the report in the order of the
    segments. *)
Theorem markdown_report_structure (segs : list Segment)
    (speakers : list SpeakerSummary) (metadata : Metadata) :
  let lines := markdown_lines segs speakers metadata in
  List.length lines
  = (9 + (match speakers with [] => 0 | _ :: _ => List.length speakers + 2 end)
     + 3 * List.length segs)%nat /\
  skipn (List.length lines - 3 * List.length segs) lines
  = flat_map markdown_segment_lines segs.
Proof.
  intro lines. split.
  - unfold lines, markdown_lines.
    destruct speakers as [|sp speakers];
      repeat rewrite ?List.length_app, ?length_map, ?flat_map_length_3; simpl;
      repeat rewrite ?List.length_app, ?length_map, ?flat_map_length_3; simpl; lia.
  - unfold lines, markdown_lines.
    rewrite <- (flat_map_length_3 segs).
    rewrite !app_assoc. apply skipn_past.
Qed.
